(** * A verified model of the PID gateway (main.py)

    The gateway reads telemetry lines from a serial device, converts them to
    percentages, logs and posts them, and relays a remotely held setpoint
    back to the device.  This development embeds main.py function by
    function and states the properties of its decoder, its unit conversion,
    its audit log, its setpoint synchronisation and its reconnection loop.

    Modelling conventions.
    - A Python [float] is an exact rational ([Q]); the decimal literals of
      the source are written as they stand ([1.3], [85.0]).  Rounding,
      infinities and NaN are outside the model.
    - A Python [int] is a [Z]; a [str] is a [string] of 8-bit characters.
    - Module-level variables live in one [world] record together with the
      state of the serial port, of the log file and the history of
      observable actions.  Statements are computations in a state and
      exception monad: an assignment made before an exception is raised
      stays made, as in Python.
    - What the outside world answers (whether the port opens, whether a
      serial operation fails, what the HTTP server returns) is read from an
      [env] of oracles. *)

From Stdlib Require Import QArith Qround Qabs Qminmax ZArith Bool List String Ascii.
From Stdlib Require Import Lia Lqa Morphisms Floats.
From Stdlib Require Import Numbers.DecimalString.
Import ListNotations.

Open Scope string_scope.
Open Scope Z_scope.

(** ** Text: the str operations main.py uses *)

Module PyStr.

(** Characters [str.strip()] and [float()]/[int()] treat as blank (ASCII). *)
Definition is_space (c : ascii) : bool :=
  let n := nat_of_ascii c in
  ((9 <=? n) && (n <=? 13) || (28 <=? n) && (n <=? 32))%nat.

Definition is_digit (c : ascii) : bool :=
  let n := nat_of_ascii c in ((48 <=? n) && (n <=? 57))%nat.

Definition digit_val (c : ascii) : Z := Z.of_nat (nat_of_ascii c) - 48.

Fixpoint lstrip_chars (cs : list ascii) : list ascii :=
  match cs with
  | c :: cs' => if is_space c then lstrip_chars cs' else cs
  | [] => []
  end.

Definition strip_chars (cs : list ascii) : list ascii :=
  rev (lstrip_chars (rev (lstrip_chars cs))).

(** [s.strip()] *)
Definition strip (s : string) : string :=
  string_of_list_ascii (strip_chars (list_ascii_of_string s)).

(** [sub in s] *)
Fixpoint contains (sub s : string) : bool :=
  if prefix sub s then true
  else match s with
       | EmptyString => false
       | String _ s' => contains sub s'
       end.

(** [s.split(sep)] for a one-character separator. *)
Fixpoint split (sep : ascii) (s : string) : list string :=
  match s with
  | EmptyString => [EmptyString]
  | String c s' =>
      if Ascii.eqb c sep then EmptyString :: split sep s'
      else match split sep s' with
           | p :: ps => String c p :: ps
           | [] => [String c EmptyString]
           end
  end.

(** Truth value of a str: non-empty. *)
Definition truthy (s : string) : bool :=
  match s with EmptyString => false | _ => true end.

(** The tail of a digit group: digits, each optionally preceded by a single
    underscore.  Returns the value read, how many digits it has, and what
    follows. *)
Fixpoint digitpart_tail (acc : Z) (n : nat) (cs : list ascii)
  : Z * nat * list ascii :=
  match cs with
  | c :: cs' =>
      if is_digit c then digitpart_tail (10 * acc + digit_val c) (S n) cs'
      else if Ascii.eqb c "_" then
        match cs' with
        | d :: cs'' =>
            if is_digit d
            then digitpart_tail (10 * acc + digit_val d) (S n) cs''
            else (acc, n, cs)
        | [] => (acc, n, cs)
        end
      else (acc, n, cs)
  | [] => (acc, n, [])
  end.

(** A digit group: at least one digit. *)
Definition digitpart (cs : list ascii) : option (Z * nat * list ascii) :=
  match cs with
  | c :: cs' =>
      if is_digit c then Some (digitpart_tail (digit_val c) 1 cs') else None
  | [] => None
  end.

(** An optional sign: [true] for a minus. *)
Definition sign (cs : list ascii) : bool * list ascii :=
  match cs with
  | c :: cs' =>
      if Ascii.eqb c "-" then (true, cs')
      else if Ascii.eqb c "+" then (false, cs')
      else (false, cs)
  | [] => (false, [])
  end.

Definition signed (neg : bool) (z : Z) : Z := if neg then - z else z.

(** [int(s)] in base 10; [None] stands for ValueError. *)
Definition py_int (s : string) : option Z :=
  let (neg, cs) := sign (strip_chars (list_ascii_of_string s)) in
  match digitpart cs with
  | Some (v, _, []) => Some (signed neg v)
  | _ => None
  end.

(** The mantissa of a float literal: digits with an optional fraction, or a
    fraction alone.  Returns the digits read as one integer, the number of
    fraction digits, and what follows. *)
Definition mantissa (cs : list ascii) : option (Z * nat * list ascii) :=
  match digitpart cs with
  | Some (ip, _, r1) =>
      match r1 with
      | c :: r2 =>
          if Ascii.eqb c "." then
            match digitpart r2 with
            | Some (_, _, _) =>
                match r2 with
                | d :: r2' =>
                    Some (digitpart_tail (10 * ip + digit_val d) 1 r2')
                | [] => Some (ip, O, r2)
                end
            | None => Some (ip, O, r2)
            end
          else Some (ip, O, r1)
      | [] => Some (ip, O, [])
      end
  | None =>
      match cs with
      | c :: r2 => if Ascii.eqb c "." then digitpart r2 else None
      | [] => None
      end
  end.

(** The exponent of a float literal, if any; what follows it must be the
    end of the text. *)
Definition exponent (cs : list ascii) : option Z :=
  match cs with
  | [] => Some 0
  | c :: r =>
      if Ascii.eqb c "e" || Ascii.eqb c "E" then
        let (neg, r') := sign r in
        match digitpart r' with
        | Some (e, _, []) => Some (signed neg e)
        | _ => None
        end
      else None
  end.

(** The rational [m * 10 ^ e], with a power of ten as denominator when
    [e] is negative (so "5.2" reads as [52 # 10], the literal [5.2]). *)
Definition scale10 (m e : Z) : Q :=
  if 0 <=? e then Qmake (m * 10 ^ e) 1
  else Qmake m (Z.to_pos (10 ^ (- e))).

(** [float(s)] on a finite decimal literal; [None] stands for ValueError.
    The texts "inf", "infinity" and "nan", which Python accepts, have no
    value in the model. *)
Definition py_float (s : string) : option Q :=
  let (neg, cs) := sign (strip_chars (list_ascii_of_string s)) in
  match mantissa cs with
  | Some (m, k, rest) =>
      match exponent rest with
      | Some e => Some (scale10 (signed neg m) (e - Z.of_nat k))
      | None => None
      end
  | None => None
  end.

End PyStr.

(** ** Numbers as text: [f"{x}"] and [f"{x:.1f}"] *)

Module PyFmt.

Definition nat_string (n : Z) : string :=
  NilZero.string_of_uint (N.to_uint (Z.to_N n)).

(** The last [k] decimal digits of [n], zero padded. *)
Fixpoint digits (k : nat) (n : Z) : string :=
  match k with
  | O => EmptyString
  | S k' =>
      digits k' (n / 10)
      ++ String (ascii_of_nat (48 + Z.to_nat (n mod 10))) EmptyString
  end.

(** [n * 10^-k] for [0 <= n], written with exactly [k] fraction digits. *)
Definition fixed (k : nat) (n : Z) : string :=
  nat_string (n / 10 ^ Z.of_nat k) ++ "." ++ digits k (n mod 10 ^ Z.of_nat k).

(** Nearest integer, ties to even. *)
Definition round_half_even (q : Q) : Z :=
  let f := Qfloor q in
  match Qcompare (q - inject_Z f) (Qmake 1 2) with
  | Lt => f
  | Gt => f + 1
  | Eq => if Z.even f then f else f + 1
  end.

Definition sign_text (x : Q) : string :=
  if Qle_bool 0 x then EmptyString else "-".

(** [x] rounded to [k] fraction digits.  A tie of the decimal value goes
    to the even neighbour; Python rounds the stored binary value, which can
    sit on either side of such a tie. *)
Definition fmt_fixed (k : nat) (x : Q) : string :=
  sign_text x
  ++ fixed k (round_half_even (Qabs x * inject_Z (10 ^ Z.of_nat k))).

(** [f"{x:.1f}"] *)
Definition fmt_1f (x : Q) : string := fmt_fixed 1 x.

Definition is_integer (q : Q) : bool :=
  (Qnum q mod Zpos (Qden q) =? 0)%Z.

(** The least number of fraction digits, from [k] on and within [fuel]
    more, that write [x] exactly. *)
Fixpoint frac_digits (fuel k : nat) (x : Q) : nat :=
  match fuel with
  | O => k
  | S fuel' =>
      if is_integer (x * inject_Z (10 ^ Z.of_nat k)) then k
      else frac_digits fuel' (S k) x
  end.

(** [repr(x)], which is what [f"{x}"] prints for a float: the shortest
    decimal that reads back as [x], with at least one fraction digit
    ("90.0").  Exact for the decimals a setpoint takes (a few significant
    digits, written positionally); a value with no finite decimal
    expansion is cut at 17 fraction digits. *)
Definition float_repr (x : Q) : string :=
  fmt_fixed (frac_digits 16 1 x) x.

End PyFmt.

(** ** Exceptions, the outside world and the program state *)

(** The exception classes that occur in main.py and in the calls it makes. *)
Inductive exn :=
| SerialException
| OSError
| ValueError
| TypeError
| KeyError
| RequestException.

(** What [res.json()] returns; [JObj fields] lists the items of a dict,
    each key once. *)
#[warnings="-register-all"]
Inductive json :=
| JNull
| JBool (b : bool)
| JNum (q : Q)
| JStr (s : string)
| JArr (items : list json)
| JObj (fields : list (string * json)).

(** What a request comes to: a [requests.RequestException] (timeout,
    connection error), or a response with its status code and its body as
    [res.json()] reads it ([None]: the body is not JSON and [res.json()]
    raises). *)
Inductive http_outcome :=
| RequestFailed
| Response (status_code : Z) (body : option json).

(** The oracles.  [port_open n] is what the [n]-th call of
    [serial.Serial(...)] meets ([None]: the port opens); [serial_fault n] is
    what the [n]-th operation on a serial handle meets ([None]: it works).
    The others are indexed by the iteration of the control loop, each
    iteration making at most one call of each kind; [arrivals k] are the
    lines the device has sent since the previous iteration, each as one
    [readline()] returns it. *)
Record env := mkEnv {
  port_open : nat -> option exn;
  serial_fault : nat -> option exn;
  arrivals : nat -> list string;
  clock : nat -> Q;
  http_get : nat -> http_outcome;
  http_post : nat -> http_outcome;
  file_open_ok : nat -> bool;
  timestamp : nat -> string
}.

(** Observable actions, newest first in [trace]. *)
Inductive event :=
| Opened (h : nat)
| OpenFailed (e : exn)
| Wrote (h : nat) (frame : string)
| Closed (h : nat)
| Slept (seconds : Q)
| PostRequest (upper_percent lower_percent pump_percent : Q)
| GetRequest
| FileOpened
| FileClosed.

Definition csv_row := list string.

Record world := mkWorld {
  (* module-level variables of main.py *)
  current_setpoint : Q;
  last_upper : Q;
  last_lower : Q;
  last_pump : Z;
  ser : option nat;
  last_post_time : Q;
  last_get_time : Q;
  last_serial_time : Q;
  (* the serial port: calls made so far, handles closed, lines waiting *)
  opens : nat;
  serial_ops : nat;
  closed : list nat;
  rx : list string;
  (* pid_data.csv: [None] while the file does not exist *)
  csv_file : option (list csv_row);
  trace : list event
}.

Definition set_current_setpoint (v : Q) (w : world) : world :=
  mkWorld v (last_upper w) (last_lower w) (last_pump w) (ser w)
    (last_post_time w) (last_get_time w) (last_serial_time w)
    (opens w) (serial_ops w) (closed w) (rx w) (csv_file w) (trace w).

Definition set_last_upper (v : Q) (w : world) : world :=
  mkWorld (current_setpoint w) v (last_lower w) (last_pump w) (ser w)
    (last_post_time w) (last_get_time w) (last_serial_time w)
    (opens w) (serial_ops w) (closed w) (rx w) (csv_file w) (trace w).

Definition set_last_lower (v : Q) (w : world) : world :=
  mkWorld (current_setpoint w) (last_upper w) v (last_pump w) (ser w)
    (last_post_time w) (last_get_time w) (last_serial_time w)
    (opens w) (serial_ops w) (closed w) (rx w) (csv_file w) (trace w).

Definition set_last_pump (v : Z) (w : world) : world :=
  mkWorld (current_setpoint w) (last_upper w) (last_lower w) v (ser w)
    (last_post_time w) (last_get_time w) (last_serial_time w)
    (opens w) (serial_ops w) (closed w) (rx w) (csv_file w) (trace w).

Definition set_ser (v : option nat) (w : world) : world :=
  mkWorld (current_setpoint w) (last_upper w) (last_lower w) (last_pump w) v
    (last_post_time w) (last_get_time w) (last_serial_time w)
    (opens w) (serial_ops w) (closed w) (rx w) (csv_file w) (trace w).

Definition set_last_post_time (v : Q) (w : world) : world :=
  mkWorld (current_setpoint w) (last_upper w) (last_lower w) (last_pump w)
    (ser w) v (last_get_time w) (last_serial_time w)
    (opens w) (serial_ops w) (closed w) (rx w) (csv_file w) (trace w).

Definition set_last_get_time (v : Q) (w : world) : world :=
  mkWorld (current_setpoint w) (last_upper w) (last_lower w) (last_pump w)
    (ser w) (last_post_time w) v (last_serial_time w)
    (opens w) (serial_ops w) (closed w) (rx w) (csv_file w) (trace w).

Definition set_last_serial_time (v : Q) (w : world) : world :=
  mkWorld (current_setpoint w) (last_upper w) (last_lower w) (last_pump w)
    (ser w) (last_post_time w) (last_get_time w) v
    (opens w) (serial_ops w) (closed w) (rx w) (csv_file w) (trace w).

Definition set_opens (v : nat) (w : world) : world :=
  mkWorld (current_setpoint w) (last_upper w) (last_lower w) (last_pump w)
    (ser w) (last_post_time w) (last_get_time w) (last_serial_time w)
    v (serial_ops w) (closed w) (rx w) (csv_file w) (trace w).

Definition set_serial_ops (v : nat) (w : world) : world :=
  mkWorld (current_setpoint w) (last_upper w) (last_lower w) (last_pump w)
    (ser w) (last_post_time w) (last_get_time w) (last_serial_time w)
    (opens w) v (closed w) (rx w) (csv_file w) (trace w).

Definition set_closed (v : list nat) (w : world) : world :=
  mkWorld (current_setpoint w) (last_upper w) (last_lower w) (last_pump w)
    (ser w) (last_post_time w) (last_get_time w) (last_serial_time w)
    (opens w) (serial_ops w) v (rx w) (csv_file w) (trace w).

Definition set_rx (v : list string) (w : world) : world :=
  mkWorld (current_setpoint w) (last_upper w) (last_lower w) (last_pump w)
    (ser w) (last_post_time w) (last_get_time w) (last_serial_time w)
    (opens w) (serial_ops w) (closed w) v (csv_file w) (trace w).

Definition set_csv_file (v : option (list csv_row)) (w : world) : world :=
  mkWorld (current_setpoint w) (last_upper w) (last_lower w) (last_pump w)
    (ser w) (last_post_time w) (last_get_time w) (last_serial_time w)
    (opens w) (serial_ops w) (closed w) (rx w) v (trace w).

Definition log_event (e : event) (w : world) : world :=
  mkWorld (current_setpoint w) (last_upper w) (last_lower w) (last_pump w)
    (ser w) (last_post_time w) (last_get_time w) (last_serial_time w)
    (opens w) (serial_ops w) (closed w) (rx w) (csv_file w) (e :: trace w).

(** ** Statements: state, exceptions, and loops that may not end *)

(** How a statement ends: normally, by raising, or not within the fuel
    given to a loop that has no bound of its own. *)
Inductive outcome (A : Type) :=
| Ok (a : A)
| Raise (e : exn)
| OutOfFuel.
Arguments Ok {A} a.
Arguments Raise {A} e.
Arguments OutOfFuel {A}.

Definition M (A : Type) : Type := world -> outcome A * world.

Definition ret {A} (a : A) : M A := fun w => (Ok a, w).

Definition bind {A B} (c : M A) (k : A -> M B) : M B :=
  fun w =>
    match c w with
    | (Ok a, w') => k a w'
    | (Raise e, w') => (Raise e, w')
    | (OutOfFuel, w') => (OutOfFuel, w')
    end.

Definition raise {A} (e : exn) : M A := fun w => (Raise e, w).

Definition read {A} (f : world -> A) : M A := fun w => (Ok (f w), w).

Definition modify (f : world -> world) : M unit := fun w => (Ok tt, f w).

(** [try: body except <classes>: handler] *)
Definition try_except {A} (body : M A) (caught : exn -> bool)
  (handler : exn -> M A) : M A :=
  fun w =>
    match body w with
    | (Raise e, w') => if caught e then handler e w' else (Raise e, w')
    | r => r
    end.

(** [try: body finally: cleanup] (and [with], whose cleanup closes the
    resource).  A body that has not ended has not reached its cleanup. *)
Definition try_finally {A} (body : M A) (cleanup : M unit) : M A :=
  fun w =>
    match body w with
    | (OutOfFuel, w') => (OutOfFuel, w')
    | (r, w') =>
        match cleanup w' with
        | (Ok _, w'') => (r, w'')
        | (Raise e, w'') => (Raise e, w'')
        | (OutOfFuel, w'') => (OutOfFuel, w'')
        end
    end.

Declare Scope py_scope.
Delimit Scope py_scope with py.
Notation "x <- c ;; k" := (bind c (fun x => k))
  (at level 61, c at next level, right associativity) : py_scope.
Notation "c ;; k" := (bind c (fun _ => k))
  (at level 61, right associativity) : py_scope.
Open Scope py_scope.

(** [while cond: body], at most [fuel] tests of the condition. *)
Fixpoint while (fuel : nat) (cond : M bool) (body : M unit) : M unit :=
  match fuel with
  | O => fun w => (OutOfFuel, w)
  | S fuel' =>
      b <- cond ;;
      if b then body ;; while fuel' cond body else ret tt
  end.

(** ** main.py *)

Open Scope Q_scope.

(** Tank configuration *)
Definition TANK_HEIGHT : Q := 15.0.
Definition SENSOR_OFFSET : Q := 1.3.
Definition MIN_WATER_HEIGHT : Q := 2.5.
Definition MAX_WATER_HEIGHT : Q := 10.0.
Definition SENSOR_TO_BOTTOM : Q := TANK_HEIGHT - SENSOR_OFFSET.
Definition SENSOR_TO_EMPTY : Q := SENSOR_TO_BOTTOM - MIN_WATER_HEIGHT.
Definition SENSOR_TO_FULL : Q := SENSOR_TO_BOTTOM - MAX_WATER_HEIGHT.

(** Serial configuration and timing intervals (seconds) *)
Definition RETRY_DELAY : Q := 5.
Definition POST_INTERVAL : Q := 1.0.
Definition GET_INTERVAL : Q := 1.0.
Definition SERIAL_READ_INTERVAL : Q := 0.1.

(** The values the module-level variables start with, in a world where
    nothing has happened yet. *)
Definition initial_world : world :=
  mkWorld 85.0 0.0 0.0 0%Z None 0 0 0 O O [] [] None [].

Definition Qlt_bool (a b : Q) : bool := negb (Qle_bool b a).

(** [min(a, b)] and [max(a, b)]: the first argument unless the second is
    strictly smaller (larger). *)
Definition py_min (a b : Q) : Q := if Qlt_bool b a then b else a.
Definition py_max (a b : Q) : Q := if Qlt_bool a b then b else a.

Definition sensor_to_percent (sensor_reading : Q) : Q :=
  let reading := py_max (py_min sensor_reading SENSOR_TO_EMPTY) SENSOR_TO_FULL in
  ((SENSOR_TO_EMPTY - reading) / (SENSOR_TO_EMPTY - SENSOR_TO_FULL)) * 100.0.

(** The pump conversion, written inline in the posting step:
    [((last_pump - 16.0) / (50.0 - 16.0)) * 100.0 if last_pump > 0 else 0]. *)
Definition pump_to_percent (last_pump : Z) : Q :=
  if (0 <? last_pump)%Z
  then ((inject_Z last_pump - 16.0) / (50.0 - 16.0)) * 100.0
  else 0.

(** The sensor conversion once more, on binary64 floats as Python computes
    it, to evaluate at the values the properties name. *)
Module Binary64.

Import PrimFloat.
#[local] Open Scope float_scope.
#[local] Set Warnings "-inexact-float".

Definition SENSOR_TO_BOTTOM : float := 15.0 - 1.3.
Definition SENSOR_TO_EMPTY : float := SENSOR_TO_BOTTOM - 2.5.
Definition SENSOR_TO_FULL : float := SENSOR_TO_BOTTOM - 10.0.

Definition py_min (a b : float) : float := if ltb b a then b else a.
Definition py_max (a b : float) : float := if ltb a b then b else a.

Definition sensor_to_percent (sensor_reading : float) : float :=
  let reading := py_max (py_min sensor_reading SENSOR_TO_EMPTY) SENSOR_TO_FULL in
  ((SENSOR_TO_EMPTY - reading) / (SENSOR_TO_EMPTY - SENSOR_TO_FULL)) * 100.0.

End Binary64.

Definition LF : string := String (ascii_of_nat 10) EmptyString.

(** [f"SP:{setpoint}\n"] *)
Definition setpoint_frame (setpoint : Q) : string :=
  "SP:" ++ PyFmt.float_repr setpoint ++ LF.

(** [float(text)] and [int(text)] as statements. *)
Definition float_str (text : string) : M Q :=
  match PyStr.py_float text with
  | Some q => ret q
  | None => raise ValueError
  end.

Definition int_str (text : string) : M Z :=
  match PyStr.py_int text with
  | Some z => ret z
  | None => raise ValueError
  end.

(** [key in data] *)
Definition py_in (key : string) (data : json) : M bool :=
  match data with
  | JObj fields => ret (existsb (fun kv => String.eqb (fst kv) key) fields)
  | JArr items =>
      ret (existsb (fun v => match v with
                             | JStr s => String.eqb s key
                             | _ => false
                             end) items)
  | JStr s => ret (PyStr.contains key s)
  | _ => raise TypeError
  end.

(** [data[key]] *)
Definition py_getitem (data : json) (key : string) : M json :=
  match data with
  | JObj fields =>
      match find (fun kv => String.eqb (fst kv) key) fields with
      | Some kv => ret (snd kv)
      | None => raise KeyError
      end
  | _ => raise TypeError
  end.

(** [float(v)] *)
Definition py_float_of (v : json) : M Q :=
  match v with
  | JNum q => ret q
  | JBool b => ret (if b then 1 else 0)
  | JStr s => float_str s
  | _ => raise TypeError
  end.

Definition is_SerialException (e : exn) : bool :=
  match e with SerialException => true | _ => false end.

Definition is_ValueError (e : exn) : bool :=
  match e with ValueError => true | _ => false end.

Definition is_RequestException (e : exn) : bool :=
  match e with RequestException => true | _ => false end.

(** [except (serial.SerialException, OSError)] *)
Definition is_SerialException_or_OSError (e : exn) : bool :=
  match e with SerialException | OSError => true | _ => false end.

(** [except Exception] *)
Definition is_Exception (e : exn) : bool := true.

Definition sleep (seconds : Q) : M unit := modify (log_event (Slept seconds)).

Definition post (res : http_outcome) (upper_percent lower_percent pump_percent : Q)
  : M unit :=
  try_except
    (modify (log_event (PostRequest upper_percent lower_percent pump_percent)) ;;
     match res with
     | RequestFailed => raise RequestException
     | Response _ _ => ret tt
     end)
    is_RequestException
    (fun _ => ret tt).

Definition get (res : http_outcome) : M bool :=
  try_except
    (modify (log_event GetRequest) ;;
     match res with
     | RequestFailed => raise RequestException
     | Response status_code body =>
         if (status_code =? 200)%Z then
           data <- match body with
                   | Some d => ret d
                   | None => raise ValueError
                   end ;;
           present <- py_in "setpoint" data ;;
           if present then
             v <- py_getitem data "setpoint" ;;
             new_sp <- py_float_of v ;;
             sp <- read current_setpoint ;;
             if negb (Qeq_bool new_sp sp) then
               modify (set_current_setpoint new_sp) ;;
               ret true
             else ret false
           else ret false
         else ret false
     end)
    is_Exception
    (fun _ => ret false).

Definition fieldnames : csv_row := ["timestamp"; "PV"; "CO"; "setpoint"].

Definition writerow (row : csv_row) : M unit :=
  modify (fun w =>
            set_csv_file (Some (match csv_file w with
                                | Some rows => (rows ++ [row])%list
                                | None => [row]
                                end)) w).

(** [open_ok] tells whether [open(filename, 'a')] succeeds, [now] is
    [datetime.now().strftime('%Y-%m-%d %H:%M:%S')].  Opening for append
    creates the file when it is not there; the [with] statement closes it
    however its body ends. *)
Definition log_pid_data_to_csv (open_ok : bool) (now : string)
  (upper_percent pump_percent setpoint : Q) : M unit :=
  file_exists <- read (fun w => match csv_file w with
                                | Some _ => true
                                | None => false
                                end) ;;
  try_except
    ((if open_ok then ret tt else raise OSError) ;;
     modify (fun w => log_event FileOpened
                        match csv_file w with
                        | Some _ => w
                        | None => set_csv_file (Some []) w
                        end) ;;
     try_finally
       ((if negb file_exists then writerow fieldnames else ret tt) ;;
        writerow [now; PyFmt.fmt_1f upper_percent; PyFmt.fmt_1f pump_percent;
                  PyFmt.fmt_1f setpoint])
       (modify (log_event FileClosed)))
    is_Exception
    (fun _ => ret tt).

(** The body of the read loop for one line (lines 147-159): a handshake
    line is skipped; a line with commas that splits in three has its
    fields converted and assigned one after the other inside one [try]. *)
Definition process_line (line : string) : M unit :=
  if PyStr.contains "INTERLOCK" line then ret tt
  else if PyStr.truthy line && PyStr.contains "," line then
    let parts := PyStr.split "," line in
    if (List.length parts =? 3)%nat then
      try_except
        (u <- float_str (nth 0 parts "") ;;
         modify (set_last_upper u) ;;
         l <- float_str (nth 1 parts "") ;;
         modify (set_last_lower l) ;;
         p <- int_str (nth 2 parts "") ;;
         modify (set_last_pump p))
        is_ValueError
        (fun _ => ret tt)
    else ret tt
  else ret tt.

Section Gateway.

Variable E : env.

(** *** The serial handle (pyserial) *)

(** One operation on a handle: it works or raises what the oracle says. *)
Definition serial_op : M unit :=
  fun w =>
    let w' := set_serial_ops (S (serial_ops w)) w in
    match serial_fault E (serial_ops w) with
    | Some e => (Raise e, w')
    | None => (Ok tt, w')
    end.

(** [serial.Serial(port=..., baudrate=..., timeout=...)]: a fresh handle,
    numbered by the call that opened it. *)
Definition Serial : M nat :=
  fun w =>
    let w' := set_opens (S (opens w)) w in
    match port_open E (opens w) with
    | Some e => (Raise e, log_event (OpenFailed e) w')
    | None => (Ok (opens w), log_event (Opened (opens w)) w')
    end.

(** [ser.flushInput()] discards what is waiting. *)
Definition flushInput (h : nat) : M unit := serial_op ;; modify (set_rx []).

Definition flushOutput (h : nat) : M unit := serial_op.

Definition write (h : nat) (data : string) : M unit :=
  serial_op ;; modify (log_event (Wrote h data)).

(** [ser.in_waiting]: non-zero exactly when something is waiting. *)
Definition in_waiting (h : nat) : M nat :=
  serial_op ;; read (fun w => List.length (rx w)).

(** [ser.readline().decode('utf-8', errors='replace')] *)
Definition readline (h : nat) : M string :=
  serial_op ;;
  fun w => match rx w with
           | [] => (Ok EmptyString, w)
           | l :: rest => (Ok l, set_rx rest w)
           end.

Definition close (h : nat) : M unit :=
  modify (fun w => log_event (Closed h) (set_closed (h :: closed w) w)).

Definition is_open (h : nat) : M bool :=
  read (fun w => negb (existsb (Nat.eqb h) (closed w))).

(** *** The functions that talk to the device *)

Definition send_setpoint_to_arduino (h : nat) (setpoint : Q) : M unit :=
  try_except
    (flushInput h ;;
     flushOutput h ;;
     write h (setpoint_frame setpoint))
    is_SerialException
    (fun e => raise e).

(** Lines 85-96, the body of the [try] in [establish_serial_connection]:
    one connection attempt. *)
Definition connect_attempt : M nat :=
  h <- Serial ;;
  flushInput h ;;
  flushOutput h ;;
  sleep 2 ;;
  sp <- read current_setpoint ;;
  send_setpoint_to_arduino h sp ;;
  ret h.

(** [while True:] with at most [fuel] attempts. *)
Fixpoint establish_serial_connection (fuel : nat) : M nat :=
  match fuel with
  | O => fun w => (OutOfFuel, w)
  | S fuel' =>
      try_except connect_attempt
        is_SerialException_or_OSError
        (fun _ => sleep RETRY_DELAY ;; establish_serial_connection fuel')
  end.

(** *** The control loop *)

(** Lines 145-159: read and decode lines while something is waiting.  Each
    pass takes one line, so one more test than there are lines suffices. *)
Definition drain (h : nat) : M unit :=
  fun w =>
    while (S (List.length (rx w)))
      (n <- in_waiting h ;; ret (negb (n =? 0)%nat))
      (raw <- readline h ;; process_line (PyStr.strip raw))
      w.

(** Lines 142-163. *)
Definition serial_processing (current_time : Q) : M unit :=
  s <- read ser ;;
  match s with
  | None => ret tt
  | Some h =>
      n <- in_waiting h ;;
      t <- read last_serial_time ;;
      if negb (n =? 0)%nat && Qle_bool SERIAL_READ_INTERVAL (current_time - t)
      then
        modify (set_last_serial_time current_time) ;;
        try_except (drain h) is_SerialException
          (fun _ => close h ;; modify (set_ser None))
      else ret tt
  end.

(** Lines 166-177. *)
Definition api_posting (k : nat) (current_time : Q) : M unit :=
  t <- read last_post_time ;;
  if Qle_bool POST_INTERVAL (current_time - t) then
    u <- read last_upper ;;
    l <- read last_lower ;;
    p <- read last_pump ;;
    sp <- read current_setpoint ;;
    let upper_percent := sensor_to_percent u in
    let lower_percent := sensor_to_percent l in
    let pump_percent := pump_to_percent p in
    log_pid_data_to_csv (file_open_ok E k) (timestamp E k)
      upper_percent pump_percent sp ;;
    post (http_post E k) upper_percent lower_percent pump_percent ;;
    modify (set_last_post_time current_time)
  else ret tt.

(** Lines 180-186. *)
Definition setpoint_check (k : nat) (current_time : Q) : M unit :=
  t <- read last_get_time ;;
  if Qle_bool GET_INTERVAL (current_time - t) then
    changed <- get (http_get E k) ;;
    s <- read ser ;;
    match changed, s with
    | true, Some h =>
        sp <- read current_setpoint ;;
        try_except (send_setpoint_to_arduino h sp) is_SerialException
          (fun _ => modify (set_ser None))
    | _, _ => ret tt
    end ;;
    modify (set_last_get_time current_time)
  else ret tt.

(** Lines 189-190. *)
Definition reconnect_if_needed (fuel : nat) : M unit :=
  s <- read ser ;;
  stale <- match s with
           | None => ret true
           | Some h => o <- is_open h ;; ret (negb o)
           end ;;
  if stale then
    h <- establish_serial_connection fuel ;;
    modify (set_ser (Some h))
  else ret tt.

(** The [k]-th pass through the body of [while True:] (lines 139-192). *)
Definition loop_body (fuel k : nat) : M unit :=
  modify (fun w => set_rx (rx w ++ arrivals E k)%list w) ;;
  let current_time := clock E (3 + k) in
  serial_processing current_time ;;
  api_posting k current_time ;;
  setpoint_check k current_time ;;
  reconnect_if_needed fuel ;;
  sleep 0.05.

(** [n] passes from the [k]-th on. *)
Fixpoint passes (fuel n k : nat) : M unit :=
  match n with
  | O => ret tt
  | S n' => loop_body fuel k ;; passes fuel n' (S k)
  end.

(** [while True:] (line 138), followed for [n] passes: it has no exit of
    its own, so it ends by an exception or not at all. *)
Definition forever (fuel n : nat) : M unit :=
  passes fuel n O ;; fun w => (OutOfFuel, w).

(** The script (lines 129-199).  [Raise e] means that [e] left the loop
    and, after the [finally] clause, ended the process; [OutOfFuel] that
    the process is still running after [n] passes.  KeyboardInterrupt, the
    one exception the outer [try] catches, is not part of the model. *)
Definition main (fuel n : nat) : M unit :=
  modify (set_ser None) ;;
  try_finally
    (h <- establish_serial_connection fuel ;;
     modify (set_ser (Some h)) ;;
     modify (set_last_post_time (clock E 0)) ;;
     modify (set_last_get_time (clock E 1)) ;;
     modify (set_last_serial_time (clock E 2)) ;;
     forever fuel n)
    (s <- read ser ;;
     match s with
     | Some h => o <- is_open h ;; if o then close h else ret tt
     | None => ret tt
     end).

End Gateway.

(** * What the properties speak of *)

(** The notions below are not part of main.py: they name what the
    properties are about (the history of frames, the state of the log
    file, the course of the connection attempts) and the outside worlds
    the examples run in. *)

(** The linear map on a reading already clamped. *)
Definition percent_of_clamped (reading : Q) : Q :=
  ((SENSOR_TO_EMPTY - reading) / (SENSOR_TO_EMPTY - SENSOR_TO_FULL)) * 100.0.

(** What [float()] makes of a JSON value, where it makes something of it:
    a number, a boolean, or a string that holds a numeral. *)
Definition numeric (v : json) : option Q :=
  match v with
  | JNum q => Some q
  | JBool b => Some (if b then 1 else 0)
  | JStr s => PyStr.py_float s
  | _ => None
  end.

(** The setpoint a response reports: the response has status 200, its body
    is a JSON object, and the object has a numeric "setpoint" member. *)
Definition reported_setpoint (res : http_outcome) : option Q :=
  match res with
  | Response status_code (Some (JObj fields)) =>
      if (status_code =? 200)%Z then
        match find (fun kv => String.eqb (fst kv) "setpoint") fields with
        | Some kv => numeric (snd kv)
        | None => None
        end
      else None
  | _ => None
  end.

(** The data row [log_pid_data_to_csv] writes. *)
Definition data_row (now : string) (upper_percent pump_percent setpoint : Q)
  : csv_row :=
  [now; PyFmt.fmt_1f upper_percent; PyFmt.fmt_1f pump_percent;
   PyFmt.fmt_1f setpoint].

(** The arguments of one call. *)
Record log_call := mkLogCall {
  call_open_ok : bool;
  call_now : string;
  call_upper_percent : Q;
  call_pump_percent : Q;
  call_setpoint : Q
}.

(** The data row a call writes. *)
Definition row_of (c : log_call) : csv_row :=
  data_row (call_now c) (call_upper_percent c) (call_pump_percent c)
    (call_setpoint c).

(** Calls of [log_pid_data_to_csv] one after the other. *)
Fixpoint log_all (calls : list log_call) : M unit :=
  match calls with
  | [] => ret tt
  | c :: rest =>
      log_pid_data_to_csv (call_open_ok c) (call_now c)
        (call_upper_percent c) (call_pump_percent c) (call_setpoint c) ;;
      log_all rest
  end.

(** The file after one more row: a new file starts with the header. *)
Definition appended (file : option (list csv_row)) (row : csv_row)
  : list csv_row :=
  match file with
  | Some rows => (rows ++ [row])%list
  | None => [fieldnames; row]
  end.

(** Whether a text has a decimal point. *)
Fixpoint has_dot (s : string) : bool :=
  match s with
  | EmptyString => false
  | String c s' => Ascii.eqb c "." || has_dot s'
  end.

(** An outside world in which the port opens, no serial operation fails,
    the device sends nothing, the clock advances by one second per reading
    and no HTTP request gets through. *)
Definition calm : env :=
  mkEnv (fun _ => None) (fun _ => None) (fun _ => [])
    (fun n => inject_Z (Z.of_nat n))
    (fun _ => RequestFailed) (fun _ => RequestFailed)
    (fun _ => true) (fun _ => "2024-05-01 10:00:00").

(** A statement keeps [I] when [I] holds of the world it leaves, however it
    ends. *)
Definition keeps {A} (I : world -> Prop) (c : M A) : Prop :=
  forall w, I w -> I (snd (c w)).




(** A call of [serial.Serial(...)], whatever it came to. *)
Definition is_attempt (e : event) : bool :=
  match e with
  | Opened _ | OpenFailed _ => true
  | _ => false
  end.

(** A pause of [RETRY_DELAY] seconds. *)
Definition is_retry_delay (e : event) : bool :=
  match e with
  | Slept s => Qeq_bool s RETRY_DELAY
  | _ => false
  end.

(** How many of each a stretch of history holds. *)
Definition attempts_in (t : list event) : nat :=
  List.length (filter is_attempt t).

Definition retry_delays_in (t : list event) : nat :=
  List.length (filter is_retry_delay t).

(** [fails_then_connects E n w h w']: from [w], [n] attempts in a row
    fail with an exception the loop retries on, each followed by the retry
    delay, and the next attempt succeeds with handle [h], leaving [w']. *)
Inductive fails_then_connects (E : env)
  : nat -> world -> nat -> world -> Prop :=
| connects_at_once (w : world) (h : nat) (w' : world) :
    connect_attempt E w = (Ok h, w') ->
    fails_then_connects E 0 w h w'
| fails_once_more (n : nat) (w : world) (e : exn) (w1 : world) (h : nat)
    (w' : world) :
    connect_attempt E w = (Raise e, w1) ->
    is_SerialException_or_OSError e = true ->
    fails_then_connects E n (log_event (Slept RETRY_DELAY) w1) h w' ->
    fails_then_connects E (S n) w h w'.

(** The port is absent for the first two attempts and there from the
    third on. *)
Definition plugged_in_late : env :=
  mkEnv (fun n => if (n <? 2)%nat then Some SerialException else None)
    (fun _ => None) (fun _ => [])
    (fun n => inject_Z (Z.of_nat n))
    (fun _ => RequestFailed) (fun _ => RequestFailed)
    (fun _ => true) (fun _ => "2024-05-01 10:00:00").

(** The world the loop starts in when the port opens at once. *)
Definition connected_world : world :=
  set_ser (Some 0%nat)
    (snd (establish_serial_connection calm 1 initial_world)).

(** The frames written, newest first, each with its handle. *)
Fixpoint writes_of (t : list event) : list (nat * string) :=
  match t with
  | [] => []
  | Wrote h frame :: t' => (h, frame) :: writes_of t'
  | _ :: t' => writes_of t'
  end.

(** What the steps before the setpoint check leave alone on a sound
    link. *)
Definition link (w : world)
  : option nat * list nat * Q * Q * list (nat * string) :=
  (ser w, closed w, current_setpoint w, last_get_time w,
   writes_of (trace w)).

(** The server asks for 90.0; everything else is calm. *)
Definition setpoint_raised : env :=
  mkEnv (fun _ => None) (fun _ => None) (fun _ => [])
    (fun n => inject_Z (Z.of_nat n))
    (fun _ => Response 200 (Some (JObj [("setpoint", JNum 90.0)])))
    (fun _ => RequestFailed)
    (fun _ => true) (fun _ => "2024-05-01 10:00:00").

(** The port opens and the first five serial operations, those of
    [establish_serial_connection], work; the sixth, the test of
    [ser.in_waiting] on line 142, raises SerialException. *)
Definition cable_pulled : env :=
  mkEnv (fun _ => None)
    (fun n => if (n =? 5)%nat then Some SerialException else None)
    (fun _ => [])
    (fun n => inject_Z (Z.of_nat n))
    (fun _ => RequestFailed) (fun _ => RequestFailed)
    (fun _ => true) (fun _ => "2024-05-01 10:00:00").

(** A line is waiting, the tests of [ser.in_waiting] on lines 142 and 145
    work, and [ser.readline()] raises SerialException. *)
Definition read_fails : env :=
  mkEnv (fun _ => None)
    (fun n => if (n =? 7)%nat then Some SerialException else None)
    (fun k => if (k =? 0)%nat then ["5.2,3.1,20" ++ LF] else [])
    (fun n => inject_Z (Z.of_nat n))
    (fun _ => RequestFailed) (fun _ => RequestFailed)
    (fun _ => true) (fun _ => "2024-05-01 10:00:00").

(** The three retained readings. *)
Definition readings (w : world) : Q * Q * Z :=
  (last_upper w, last_lower w, last_pump w).

(** What decoding a line has no business with: everything but the three
    readings. *)
Definition beside_readings (w : world) :=
  (current_setpoint w, ser w, last_post_time w, last_get_time w,
   last_serial_time w, opens w, serial_ops w, closed w, rx w, csv_file w,
   trace w).

(** What reading from the device has no business with: everything but
    the readings, the lines waiting and the count of serial operations. *)
Definition beside_reading (w : world) :=
  (current_setpoint w, ser w, last_post_time w, last_get_time w,
   last_serial_time w, opens w, closed w, csv_file w, trace w).


(** The lines of a buffer decoded one after the other. *)
Fixpoint decode_all (lines : list string) (w : world) : world :=
  match lines with
  | [] => w
  | raw :: rest =>
      decode_all rest (snd (process_line (PyStr.strip raw) w))
  end.

(** The calls of a list on which the file opens. *)
Definition opened_calls (calls : list log_call) : list log_call :=
  filter call_open_ok calls.

(** The history of [n] openings of the log file, each followed by its
    closing (newest first). *)
Fixpoint open_close (n : nat) : list event :=
  match n with
  | O => []
  | S n' => FileClosed :: FileOpened :: open_close n'
  end.

(** * Properties *)

(** ** Unit conversion *)

Lemma Qlt_bool_iff (a b : Q) : Qlt_bool a b = true <-> a < b.
Proof.
  unfold Qlt_bool. rewrite negb_true_iff.
  split; intro H.
  - apply Qnot_le_lt. intro Hle. apply Qle_bool_iff in Hle. congruence.
  - destruct (Qle_bool b a) eqn:Hb; trivial.
    apply Qle_bool_iff in Hb. exfalso. exact (Qlt_not_le _ _ H Hb).
Qed.

Lemma Qlt_bool_false_iff (a b : Q) : Qlt_bool a b = false <-> b <= a.
Proof.
  unfold Qlt_bool. rewrite negb_false_iff. apply Qle_bool_iff.
Qed.

(** [max(min(x, hi), lo)] is the clamp of [x] to [lo, hi]. *)
Lemma py_clamp_cases (x : Q) :
  let c := py_max (py_min x SENSOR_TO_EMPTY) SENSOR_TO_FULL in
  (x <= SENSOR_TO_FULL /\ c == SENSOR_TO_FULL)
  \/ (SENSOR_TO_FULL <= x /\ x <= SENSOR_TO_EMPTY /\ c == x)
  \/ (SENSOR_TO_EMPTY <= x /\ c == SENSOR_TO_EMPTY).
Proof.
  cbv zeta. unfold py_max, py_min.
  destruct (Qlt_bool SENSOR_TO_EMPTY x) eqn:H1.
  - apply Qlt_bool_iff in H1.
    assert (H2 : Qlt_bool SENSOR_TO_EMPTY SENSOR_TO_FULL = false)
      by reflexivity.
    rewrite H2. right. right. split; [apply Qlt_le_weak, H1 | reflexivity].
  - apply Qlt_bool_false_iff in H1.
    destruct (Qlt_bool x SENSOR_TO_FULL) eqn:H2.
    + apply Qlt_bool_iff in H2. left.
      split; [apply Qlt_le_weak, H2 | reflexivity].
    + apply Qlt_bool_false_iff in H2. right. left.
      repeat split; trivial; reflexivity.
Qed.

Lemma sensor_range_positive : 0 < SENSOR_TO_EMPTY - SENSOR_TO_FULL.
Proof. reflexivity. Qed.

Lemma percent_of_clamped_antitone (a b : Q) :
  a <= b -> percent_of_clamped b <= percent_of_clamped a.
Proof.
  intro H. unfold percent_of_clamped.
  apply Qmult_le_compat_r; [| discriminate].
  unfold Qdiv. apply Qmult_le_compat_r.
  - lra.
  - apply Qlt_le_weak, Qinv_lt_0_compat, sensor_range_positive.
Qed.

#[local] Instance percent_of_clamped_proper :
  Proper (Qeq ==> Qeq) percent_of_clamped.
Proof. intros a b H. unfold percent_of_clamped. rewrite H. reflexivity. Qed.

Lemma sensor_to_percent_clamped (d : Q) :
  sensor_to_percent d
  = percent_of_clamped (py_max (py_min d SENSOR_TO_EMPTY) SENSOR_TO_FULL).
Proof. reflexivity. Qed.

(** C4.  [sensor_to_percent] clamps its argument to
    [SENSOR_TO_FULL, SENSOR_TO_EMPTY] and maps the clamped reading linearly
    by [(SENSOR_TO_EMPTY - clamped) / (SENSOR_TO_EMPTY - SENSOR_TO_FULL) * 100].
    Hence it does not increase with the distance, it is 0 at
    [SENSOR_TO_EMPTY] and 100 at [SENSOR_TO_FULL], and a reading beyond a
    bound gives what the bound gives. *)
Theorem sensor_to_percent_clamps_then_maps :
  (forall d,
      sensor_to_percent d
      == (SENSOR_TO_EMPTY - Qmax SENSOR_TO_FULL (Qmin d SENSOR_TO_EMPTY))
         / (SENSOR_TO_EMPTY - SENSOR_TO_FULL) * 100)
  /\ (forall d1 d2,
         SENSOR_TO_FULL <= d1 -> d1 <= d2 -> d2 <= SENSOR_TO_EMPTY ->
         sensor_to_percent d2 <= sensor_to_percent d1)
  /\ sensor_to_percent SENSOR_TO_EMPTY == 0
  /\ sensor_to_percent SENSOR_TO_FULL == 100
  /\ (forall d, SENSOR_TO_EMPTY <= d ->
                sensor_to_percent d == sensor_to_percent SENSOR_TO_EMPTY)
  /\ (forall d, d <= SENSOR_TO_FULL ->
                sensor_to_percent d == sensor_to_percent SENSOR_TO_FULL).
Proof.
  assert (HE : sensor_to_percent SENSOR_TO_EMPTY == 0) by reflexivity.
  assert (HF : sensor_to_percent SENSOR_TO_FULL == 100) by reflexivity.
  assert (Hhi : forall d, SENSOR_TO_EMPTY <= d ->
                          sensor_to_percent d == 0).
  { intros d Hd. rewrite sensor_to_percent_clamped.
    destruct (py_clamp_cases d) as [[H1 H2] | [[H1 [H3 H2]] | [H1 H2]]];
      rewrite H2.
    - exfalso. assert (SENSOR_TO_FULL < SENSOR_TO_EMPTY) by reflexivity. lra.
    - assert (Hd' : d == SENSOR_TO_EMPTY) by lra. rewrite Hd'. exact HE.
    - exact HE. }
  assert (Hlo : forall d, d <= SENSOR_TO_FULL ->
                          sensor_to_percent d == 100).
  { intros d Hd. rewrite sensor_to_percent_clamped.
    destruct (py_clamp_cases d) as [[H1 H2] | [[H1 [H3 H2]] | [H1 H2]]];
      rewrite H2.
    - exact HF.
    - assert (Hd' : d == SENSOR_TO_FULL) by lra. rewrite Hd'. exact HF.
    - exfalso. assert (SENSOR_TO_FULL < SENSOR_TO_EMPTY) by reflexivity. lra. }
  repeat apply conj.
  - intro d. rewrite sensor_to_percent_clamped.
    assert (Hc : py_max (py_min d SENSOR_TO_EMPTY) SENSOR_TO_FULL
                 == Qmax SENSOR_TO_FULL (Qmin d SENSOR_TO_EMPTY)).
    { assert (SENSOR_TO_FULL < SENSOR_TO_EMPTY) by reflexivity.
      destruct (py_clamp_cases d) as [[H1 H2] | [[H1 [H3 H2]] | [H1 H2]]];
        rewrite H2; symmetry.
      - rewrite Q.max_l; [reflexivity |].
        apply Q.min_le_iff. left. exact H1.
      - rewrite (Q.min_l d) by exact H3. apply Q.max_r. exact H1.
      - rewrite (Q.min_r d) by exact H1. apply Q.max_r. lra. }
    rewrite Hc. unfold percent_of_clamped.
    apply Qmult_comp; [reflexivity | unfold Qeq; reflexivity].
  - intros d1 d2 H1 H12 H2.
    rewrite !sensor_to_percent_clamped.
    destruct (py_clamp_cases d1) as [[A1 A2] | [[A1 [A3 A2]] | [A1 A2]]];
      destruct (py_clamp_cases d2) as [[B1 B2] | [[B1 [B3 B2]] | [B1 B2]]];
      rewrite A2, B2;
      apply percent_of_clamped_antitone; lra.
  - exact HE.
  - exact HF.
  - intros d Hd. rewrite HE. apply Hhi, Hd.
  - intros d Hd. rewrite HF. apply Hlo, Hd.
Qed.

Lemma sensor_to_percent_example :
  sensor_to_percent 6.0 <= sensor_to_percent 5.0.
Proof.
  apply (proj1 (proj2 sensor_to_percent_clamps_then_maps));
    unfold Qle; simpl; lia.
Defined.





(** In binary64 arithmetic too the end points come out exactly and a
    reading beyond a bound gives what the bound gives. *)
Example sensor_to_percent_binary64 :
  Binary64.sensor_to_percent Binary64.SENSOR_TO_EMPTY = 0%float
  /\ Binary64.sensor_to_percent Binary64.SENSOR_TO_FULL = 100%float
  /\ Binary64.sensor_to_percent 40%float = 0%float
  /\ Binary64.sensor_to_percent (-1)%float = 100%float
  /\ PrimFloat.ltb (Binary64.sensor_to_percent 6%float)
       (Binary64.sensor_to_percent 5%float) = true.
Proof. vm_compute. repeat split. Qed.

(** ** The telemetry decoder *)

Lemma split_no_comma (s : string) :
  PyStr.contains "," s = false -> PyStr.split "," s = [s].
Proof.
  induction s as [| c s IH]; intro H; [reflexivity |].
  cbn [PyStr.contains prefix] in H. cbn [PyStr.split].
  destruct (ascii_dec "," c) as [Heq | Hne].
  - destruct s; simpl in H; discriminate H.
  - assert (Hc : Ascii.eqb c "," = false)
      by (apply Ascii.eqb_neq; congruence).
    rewrite Hc, (IH H). reflexivity.
Qed.

(** A line that splits in two parts or more is not empty and has a comma. *)
Lemma split_many_passes_guard (line : string) :
  (2 <= List.length (PyStr.split "," line))%nat ->
  PyStr.truthy line && PyStr.contains "," line = true.
Proof.
  intro H.
  destruct (PyStr.contains "," line) eqn:Hc.
  - destruct line; [discriminate Hc | reflexivity].
  - rewrite (split_no_comma _ Hc) in H. simpl in H. lia.
Qed.

(** A line whose three fields convert replaces the three retained values
    together. *)
Lemma process_line_reading (line a b c : string) (u l : Q) (p : Z)
  (w : world) :
  PyStr.contains "INTERLOCK" line = false ->
  PyStr.split "," line = [a; b; c] ->
  PyStr.py_float a = Some u ->
  PyStr.py_float b = Some l ->
  PyStr.py_int c = Some p ->
  process_line line w
  = (Ok tt, set_last_pump p (set_last_lower l (set_last_upper u w))).
Proof.
  intros Hh Hs Ha Hb Hc. unfold process_line. rewrite Hh.
  rewrite split_many_passes_guard by (rewrite Hs; simpl; lia).
  rewrite Hs. simpl.
  unfold try_except, bind, float_str, int_str. simpl.
  rewrite Ha. unfold ret, modify. rewrite Hb, Hc. reflexivity.
Qed.

Lemma process_line_reading_example :
  process_line "5.2,3.1,20" initial_world
  = (Ok tt,
     set_last_pump 20 (set_last_lower 3.1 (set_last_upper 5.2 initial_world))).
Proof.
  apply (process_line_reading "5.2,3.1,20" "5.2" "3.1" "20"); reflexivity.
Defined.



(** Where the first field converts and the second does not, the first
    assignment has already been made when ValueError is caught. *)
Lemma process_line_second_field_bad (line a b c : string) (u : Q)
  (w : world) :
  PyStr.contains "INTERLOCK" line = false ->
  PyStr.split "," line = [a; b; c] ->
  PyStr.py_float a = Some u ->
  PyStr.py_float b = None ->
  process_line line w = (Ok tt, set_last_upper u w).
Proof.
  intros Hh Hs Ha Hb. unfold process_line. rewrite Hh.
  rewrite split_many_passes_guard by (rewrite Hs; simpl; lia).
  rewrite Hs. simpl.
  unfold try_except, bind, float_str. simpl.
  rewrite Ha. unfold ret, modify. rewrite Hb. reflexivity.
Qed.

(** C1.  On the line "5.2,abc,20" the decoder keeps no reading, yet the
    retained values are not left as they were: [last_upper] has become 5.2
    while [last_lower] and [last_pump] keep their old values. *)
Theorem process_line_bad_field_updates_partially :
  process_line "5.2,abc,20" initial_world
  = (Ok tt, set_last_upper 5.2 initial_world)
  /\ ~ last_upper (snd (process_line "5.2,abc,20" initial_world))
       == last_upper initial_world
  /\ last_lower (snd (process_line "5.2,abc,20" initial_world))
     = last_lower initial_world
  /\ last_pump (snd (process_line "5.2,abc,20" initial_world))
     = last_pump initial_world.
Proof.
  repeat apply conj; try reflexivity.
  vm_compute. discriminate.
Qed.

(** ** Pulling the setpoint *)

Lemma existsb_find {A} (f : A -> bool) (l : list A) :
  existsb f l = match find f l with Some _ => true | None => false end.
Proof.
  induction l as [| a l IH]; simpl; [reflexivity |].
  destruct (f a); [reflexivity | exact IH].
Qed.

Lemma py_float_of_numeric (v : json) (w : world) :
  py_float_of v w
  = match numeric v with
    | Some q => (Ok q, w)
    | None => (Raise (match v with JStr _ => ValueError | _ => TypeError end),
               w)
    end.
Proof.
  destruct v; simpl; try reflexivity.
  unfold float_str. destruct (PyStr.py_float s); reflexivity.
Qed.

(** [get] in closed form. *)
Lemma get_cases (res : http_outcome) (w : world) :
  get res w
  = match reported_setpoint res with
    | Some v =>
        if Qeq_bool v (current_setpoint w)
        then (Ok false, log_event GetRequest w)
        else (Ok true, set_current_setpoint v (log_event GetRequest w))
    | None => (Ok false, log_event GetRequest w)
    end.
Proof.
  unfold get, try_except, bind, modify.
  destruct res as [| status body]; [reflexivity |].
  unfold reported_setpoint.
  destruct (status =? 200)%Z; cycle 1.
  { destruct body as [[]|]; reflexivity. }
  destruct body as [data |]; [| reflexivity].
  destruct data; try reflexivity.
  - (* a string: membership is a substring test, indexing raises *)
    simpl. destruct (PyStr.contains "setpoint" s); reflexivity.
  - (* a list: membership may hold, indexing raises *)
    simpl.
    destruct (existsb _ items); reflexivity.
  - (* an object *)
    simpl. unfold ret. rewrite existsb_find.
    destruct (find _ fields) as [kv |]; [| reflexivity].
    rewrite py_float_of_numeric.
    destruct (numeric (snd kv)) as [v |]; [| reflexivity].
    unfold read. simpl.
    destruct (Qeq_bool v (current_setpoint w)); reflexivity.
Qed.


(** ** The audit log *)

Lemma log_pid_data_to_csv_ok (now : string) (u p sp : Q) (w : world) :
  log_pid_data_to_csv true now u p sp w
  = (Ok tt,
     log_event FileClosed
       (set_csv_file (Some (appended (csv_file w) (data_row now u p sp)))
          (log_event FileOpened w))).
Proof.
  unfold log_pid_data_to_csv, try_except, try_finally, bind, read, modify,
    writerow, ret.
  destruct w as [a b c d e f g h i j k l file t].
  destruct file; reflexivity.
Qed.

Lemma log_pid_data_to_csv_open_fails (now : string) (u p sp : Q) (w : world) :
  log_pid_data_to_csv false now u p sp w = (Ok tt, w).
Proof. reflexivity. Qed.

Lemma has_dot_app (a b : string) :
  has_dot (a ++ b) = has_dot a || has_dot b.
Proof.
  induction a as [| c a IH]; simpl; [reflexivity |].
  rewrite IH. apply orb_assoc.
Qed.

Lemma fmt_1f_has_dot (x : Q) : has_dot (PyFmt.fmt_1f x) = true.
Proof.
  unfold PyFmt.fmt_1f, PyFmt.fmt_fixed, PyFmt.fixed.
  rewrite !has_dot_app. simpl. rewrite orb_true_r. apply orb_true_r.
Qed.

(** A data row is never the header row. *)
Lemma data_row_not_header (now : string) (u p sp : Q) :
  data_row now u p sp <> fieldnames.
Proof.
  unfold data_row, fieldnames. intro H.
  injection H as _ H _ _.
  pose proof (fmt_1f_has_dot u) as Hd. rewrite H in Hd. discriminate Hd.
Qed.

Lemma log_all_file (calls : list log_call) :
  Forall (fun c => call_open_ok c = true) calls ->
  forall w, exists w',
    log_all calls w = (Ok tt, w')
    /\ csv_file w'
       = match calls, csv_file w with
         | [], file => file
         | _ :: _, Some rows => Some (rows ++ map row_of calls)%list
         | _ :: _, None => Some (fieldnames :: map row_of calls)
         end.
Proof.
  induction 1 as [| c rest Hc _ IH]; intro w.
  - exists w. split; reflexivity.
  - simpl log_all. unfold bind.
    destruct c as [ok now u p sp]. simpl in Hc. subst ok. simpl.
    rewrite log_pid_data_to_csv_ok.
    match goal with |- context [log_all rest ?w1] =>
      destruct (IH w1) as [w' [Hrun Hfile]] end.
    exists w'. split; [exact Hrun |].
    rewrite Hfile. simpl. unfold row_of at 2 4. simpl.
    destruct rest as [| c2 rest'].
    + destruct (csv_file w); reflexivity.
    + destruct (csv_file w); simpl; [| reflexivity].
      rewrite <- app_assoc. reflexivity.
Qed.

(** C8.  Calls of [log_pid_data_to_csv] on a file that does not exist, the
    file opening each time: after the calls the file is the header row
    followed by one data row per call, in order, and no data row is a
    header row.  On a file that exists each call adds its data row and
    nothing else. *)
Theorem header_written_once (calls : list log_call) (w : world) :
  Forall (fun c => call_open_ok c = true) calls ->
  calls <> [] ->
  exists w',
    log_all calls w = (Ok tt, w')
    /\ csv_file w'
       = match csv_file w with
         | None => Some (fieldnames :: map row_of calls)
         | Some rows => Some (rows ++ map row_of calls)%list
         end
    /\ ~ In fieldnames (map row_of calls).
Proof.
  intros Hok Hne.
  destruct (log_all_file calls Hok w) as [w' [Hrun Hfile]].
  exists w'. split; [exact Hrun |]. split.
  - rewrite Hfile. destruct calls; [contradiction | reflexivity].
  - intro Hin. apply in_map_iff in Hin. destruct Hin as [c [Hc _]].
    exact (data_row_not_header _ _ _ _ Hc).
Qed.

Lemma header_written_once_example :
  exists w',
    log_all [mkLogCall true "2024-05-01 10:00:00" 37.5 41.2 85.0;
             mkLogCall true "2024-05-01 10:00:01" 37.5 41.2 90.0]
      initial_world = (Ok tt, w')
    /\ csv_file w'
       = Some [fieldnames;
               ["2024-05-01 10:00:00"; "37.5"; "41.2"; "85.0"];
               ["2024-05-01 10:00:01"; "37.5"; "41.2"; "90.0"]].
Proof.
  destruct (header_written_once
              [mkLogCall true "2024-05-01 10:00:00" 37.5 41.2 85.0;
               mkLogCall true "2024-05-01 10:00:01" 37.5 41.2 90.0]
              initial_world) as [w' [Hrun [Hfile _]]].
  - repeat constructor.
  - discriminate.
  - exists w'. split; [exact Hrun | exact Hfile].
Defined.

(** The sample of one posting step and what the step does with it. *)
Lemma api_posting_due (E : env) (k : nat) (current_time : Q) (w : world) :
  Qle_bool POST_INTERVAL (current_time - last_post_time w) = true ->
  api_posting E k current_time w
  = (post (http_post E k) (sensor_to_percent (last_upper w))
       (sensor_to_percent (last_lower w)) (pump_to_percent (last_pump w)) ;;
     modify (set_last_post_time current_time))
      (snd (log_pid_data_to_csv (file_open_ok E k) (timestamp E k)
              (sensor_to_percent (last_upper w))
              (pump_to_percent (last_pump w)) (current_setpoint w) w)).
Proof.
  intro Hdue. unfold api_posting, bind at 1, read at 1. rewrite Hdue.
  unfold bind, read.
  destruct (file_open_ok E k).
  - rewrite log_pid_data_to_csv_ok. reflexivity.
  - rewrite log_pid_data_to_csv_open_fails. reflexivity.
Qed.

Lemma post_cases (res : http_outcome) (u l p : Q) (w : world) :
  post res u l p w = (Ok tt, log_event (PostRequest u l p) w).
Proof. destruct res; reflexivity. Qed.

(** C3 as the code has it.  On a push tick on which the log file opens,
    [log_pid_data_to_csv] adds exactly one data row, made of the time
    stamp, the upper percentage (PV), the pump percentage (CO) and
    [current_setpoint] as it is at that moment, each to one decimal; a new
    file gets the header row first.  The file is opened and closed before
    the sample is posted.  The lower percentage is posted but not logged. *)
Theorem push_tick_logs_one_row (E : env) (k : nat) (current_time : Q)
  (w : world) :
  Qle_bool POST_INTERVAL (current_time - last_post_time w) = true ->
  file_open_ok E k = true ->
  exists w',
    api_posting E k current_time w = (Ok tt, w')
    /\ csv_file w'
       = Some (appended (csv_file w)
                 [timestamp E k;
                  PyFmt.fmt_1f (sensor_to_percent (last_upper w));
                  PyFmt.fmt_1f (pump_to_percent (last_pump w));
                  PyFmt.fmt_1f (current_setpoint w)])
    /\ trace w'
       = PostRequest (sensor_to_percent (last_upper w))
           (sensor_to_percent (last_lower w))
           (pump_to_percent (last_pump w))
         :: FileClosed :: FileOpened :: trace w.
Proof.
  intros Hdue Hopen.
  rewrite (api_posting_due E k current_time w Hdue), Hopen.
  rewrite log_pid_data_to_csv_ok. unfold bind. simpl snd.
  rewrite post_cases. unfold modify.
  eexists. split; [reflexivity |]. split; reflexivity.
Qed.

Lemma push_tick_logs_one_row_example :
  exists w',
    api_posting calm 0 1
      (set_last_pump 30 (set_last_lower 9.0 (set_last_upper 6.0 initial_world)))
    = (Ok tt, w')
    /\ csv_file w'
       = Some [fieldnames; ["2024-05-01 10:00:00"; "69.3"; "41.2"; "85.0"]].
Proof.
  destruct (push_tick_logs_one_row calm 0 1
              (set_last_pump 30
                 (set_last_lower 9.0 (set_last_upper 6.0 initial_world))))
    as [w' [Hrun [Hfile _]]].
  - reflexivity.
  - reflexivity.
  - exists w'. split; [exact Hrun | exact Hfile].
Defined.

(** C3 as stated fails: with upper distance 6.0, lower distance 9.0 and
    pump value 30 the lower percentage is 29.3, and the row logged on the
    push tick has four fields, none of which is the lower percentage. *)
Lemma logged_row_omits_lower_percent :
  let w := set_last_pump 30
             (set_last_lower 9.0 (set_last_upper 6.0 initial_world)) in
  csv_file (snd (api_posting calm 0 1 w))
  = Some [fieldnames; ["2024-05-01 10:00:00"; "69.3"; "41.2"; "85.0"]]
  /\ PyFmt.fmt_1f (sensor_to_percent (last_lower w)) = "29.3"
  /\ ~ In (PyFmt.fmt_1f (sensor_to_percent (last_lower w)))
         ["2024-05-01 10:00:00"; "69.3"; "41.2"; "85.0"].
Proof.
  cbv zeta. split; [reflexivity |]. split; [reflexivity |].
  vm_compute. intros [H | [H | [H | [H | []]]]]; discriminate H.
Qed.

(** ** Reasoning about statements *)

Lemma keeps_ret {A} (I : world -> Prop) (a : A) : keeps I (ret a).
Proof. intros w H. exact H. Qed.


Lemma keeps_read {A} (I : world -> Prop) (f : world -> A) : keeps I (read f).
Proof. intros w H. exact H. Qed.


Lemma keeps_bind {A B} (I : world -> Prop) (c : M A) (k : A -> M B) :
  keeps I c -> (forall a, keeps I (k a)) -> keeps I (bind c k).
Proof.
  intros Hc Hk w H. unfold bind.
  specialize (Hc w H).
  destruct (c w) as [[a | e |] w1]; simpl in *; trivial.
  apply Hk, Hc.
Qed.



Lemma keeps_while (I : world -> Prop) (cond : M bool) (body : M unit) :
  keeps I cond -> keeps I body ->
  forall fuel, keeps I (while fuel cond body).
Proof.
  intros Hc Hb fuel.
  induction fuel as [| fuel IH]; [intros w H; exact H |].
  simpl. apply keeps_bind; [exact Hc |].
  intros [|]; [| apply keeps_ret].
  apply keeps_bind; [exact Hb | intros _; exact IH].
Qed.


Lemma bind_run {A B} (c : M A) (k : A -> M B) (w w1 : world) (a : A) :
  c w = (Ok a, w1) -> bind c k w = k a w1.
Proof. intro H. unfold bind. rewrite H. reflexivity. Qed.

(** *** The link with the device *)



Section Frames.

Variable E : env.








End Frames.

(** ** Connecting *)

Section Connecting.

Variable E : env.

(** One attempt, however it ends: it calls [serial.Serial] once, pauses
    for no retry delay, and leaves the setpoint and the loop's handle
    alone.  When it succeeds its handle is the fresh one, and what it has
    done is: open, settle for two seconds, write the setpoint frame. *)
Lemma connect_attempt_spec (w : world) :
  let r := fst (connect_attempt E w) in
  let w' := snd (connect_attempt E w) in
  current_setpoint w' = current_setpoint w
  /\ ser w' = ser w
  /\ closed w' = closed w
  /\ opens w' = S (opens w)
  /\ exists new,
      trace w' = (new ++ trace w)%list
      /\ attempts_in new = 1%nat
      /\ retry_delays_in new = 0%nat
      /\ forall h, r = Ok h ->
           h = opens w
           /\ new = [Wrote h (setpoint_frame (current_setpoint w));
                     Slept 2; Opened h].
Proof.
  cbv zeta.
  unfold connect_attempt, send_setpoint_to_arduino, flushInput, flushOutput,
    write, Serial, serial_op, sleep, try_except, bind, read, modify, ret,
    raise.
  destruct w as [sp lu ll lp s tp tg ts no ns cl q f t]. simpl.
  destruct (port_open E no) as [e |]; simpl.
  { repeat (split; [reflexivity |]).
    exists [OpenFailed e]. repeat (split; [reflexivity |]).
    intros h Hh. discriminate Hh. }
  repeat
    match goal with
    | |- context [serial_fault E ?n] =>
        destruct (serial_fault E n) as [[] |]; simpl
    end;
    repeat (split; [reflexivity |]);
    first
      [ exists [Opened no]; repeat (split; [reflexivity |]);
        intros h Hh; discriminate Hh
      | exists [Slept 2; Opened no]; repeat (split; [reflexivity |]);
        intros h Hh; discriminate Hh
      | exists [Wrote no (setpoint_frame sp); Slept 2; Opened no];
        repeat (split; [reflexivity |]);
        intros h Hh; injection Hh as <-; split; reflexivity ].
Qed.

End Connecting.

Lemma attempts_in_app (a b : list event) :
  attempts_in (a ++ b) = (attempts_in a + attempts_in b)%nat.
Proof. unfold attempts_in. rewrite filter_app, length_app. reflexivity. Qed.

Lemma retry_delays_in_app (a b : list event) :
  retry_delays_in (a ++ b) = (retry_delays_in a + retry_delays_in b)%nat.
Proof.
  unfold retry_delays_in. rewrite filter_app, length_app. reflexivity.
Qed.

Lemma establish_step (E : env) (fuel : nat) (w : world) :
  establish_serial_connection E (S fuel) w
  = match connect_attempt E w with
    | (Raise e, w1) =>
        if is_SerialException_or_OSError e
        then establish_serial_connection E fuel
               (log_event (Slept RETRY_DELAY) w1)
        else (Raise e, w1)
    | r => r
    end.
Proof.
  simpl. unfold try_except.
  destruct (connect_attempt E w) as [[h | e |] w1]; reflexivity.
Qed.

Lemma establish_after_failures (E : env) (n : nat) (w : world) (h : nat)
  (w' : world) :
  fails_then_connects E n w h w' ->
  forall fuel, (n < fuel)%nat ->
    establish_serial_connection E fuel w = (Ok h, w')
    /\ h = (opens w + n)%nat
    /\ exists new,
        trace w' = (new ++ trace w)%list
        /\ attempts_in new = S n
        /\ retry_delays_in new = n.
Proof.
  induction 1 as [w h w' Hok | n w e w1 h w' Hfail He Hrest IH];
    intros fuel Hfuel; (destruct fuel as [| fuel]; [lia |]);
    rewrite establish_step.
  - pose proof (connect_attempt_spec E w) as Hs. cbv zeta in Hs.
    rewrite Hok in *. simpl in Hs.
    destruct Hs as (_ & _ & _ & _ & new & Ht & Ha & Hd & Hh).
    destruct (Hh h eq_refl) as [-> _].
    split; [reflexivity |]. split; [lia |].
    exists new. auto.
  - pose proof (connect_attempt_spec E w) as Hs. cbv zeta in Hs.
    rewrite Hfail in *. simpl in Hs. rewrite He.
    destruct Hs as (_ & _ & _ & Ho & new1 & Ht & Ha & Hd & _).
    destruct (IH fuel ltac:(lia)) as (Hrun & Hh & new & Ht' & Ha' & Hd').
    split; [exact Hrun |]. split.
    + rewrite Hh. simpl. rewrite Ho. lia.
    + exists (new ++ Slept RETRY_DELAY :: new1)%list.
      split; [| split].
      * rewrite Ht'. simpl. rewrite Ht, <- app_assoc. reflexivity.
      * rewrite attempts_in_app.
        change (Slept RETRY_DELAY :: new1)
          with ([Slept RETRY_DELAY] ++ new1)%list.
        rewrite attempts_in_app, Ha, Ha'. simpl. lia.
      * rewrite retry_delays_in_app.
        change (Slept RETRY_DELAY :: new1)
          with ([Slept RETRY_DELAY] ++ new1)%list.
        rewrite retry_delays_in_app, Hd, Hd'. simpl. lia.
Qed.

Lemma establish_returns_on_success (E : env) (fuel : nat) :
  forall w h w',
    establish_serial_connection E fuel w = (Ok h, w') ->
    exists n, (n < fuel)%nat /\ fails_then_connects E n w h w'.
Proof.
  induction fuel as [| fuel IH]; intros w h w' H; [discriminate H |].
  rewrite establish_step in H.
  destruct (connect_attempt E w) as [[h1 | e |] w1] eqn:Ha;
    try discriminate H.
  - injection H as -> ->. exists O. split; [lia |].
    apply connects_at_once, Ha.
  - destruct (is_SerialException_or_OSError e) eqn:He;
      [| discriminate H].
    destruct (IH _ _ _ H) as [n [Hn Hrest]].
    exists (S n). split; [lia |].
    eapply fails_once_more; eassumption.
Qed.

Lemma connect_attempt_port_closed (E : env) (w : world) (e : exn) :
  port_open E (opens w) = Some e ->
  connect_attempt E w
  = (Raise e, log_event (OpenFailed e) (set_opens (S (opens w)) w)).
Proof.
  intro H. unfold connect_attempt, bind, Serial. rewrite H. reflexivity.
Qed.

Lemma establish_never_returns (E : env) :
  (forall n, exists e, port_open E n = Some e
                       /\ is_SerialException_or_OSError e = true) ->
  forall fuel w, fst (establish_serial_connection E fuel w) = OutOfFuel.
Proof.
  intros Hport fuel.
  induction fuel as [| fuel IH]; intro w; [reflexivity |].
  rewrite establish_step.
  destruct (Hport (opens w)) as [e [Hp He]].
  rewrite (connect_attempt_port_closed E w e Hp), He. apply IH.
Qed.

Lemma connect_attempt_sound (E : env) (w : world) :
  (forall n, serial_fault E n = None) ->
  port_open E (opens w) = None ->
  exists w', connect_attempt E w = (Ok (opens w), w').
Proof.
  intros Hs Hp.
  unfold connect_attempt, send_setpoint_to_arduino, flushInput, flushOutput,
    write, Serial, serial_op, sleep, try_except, bind, read, modify, ret.
  rewrite Hp. simpl. repeat (rewrite Hs; simpl).
  eexists. reflexivity.
Qed.

(** The port is absent for [n] calls and there at the next, and no serial
    operation fails: [n] attempts fail, the next succeeds. *)
Lemma port_absent_then_present (E : env) (n : nat) :
  (forall k, serial_fault E k = None) ->
  forall w,
    (forall i, (i < n)%nat ->
               port_open E (opens w + i) = Some SerialException) ->
    port_open E (opens w + n) = None ->
    exists w', fails_then_connects E n w (opens w + n)%nat w'.
Proof.
  intro Hs. induction n as [| n IH]; intros w Hfail Hok.
  - rewrite Nat.add_0_r in *.
    destruct (connect_attempt_sound E w Hs Hok) as [w' Hw].
    exists w'. apply connects_at_once, Hw.
  - assert (H0 : port_open E (opens w) = Some SerialException).
    { rewrite <- (Nat.add_0_r (opens w)). apply Hfail. lia. }
    destruct (IH (log_event (Slept RETRY_DELAY)
                    (log_event (OpenFailed SerialException)
                       (set_opens (S (opens w)) w)))) as [w' Hw].
    + intros i Hi. simpl.
      replace (S (opens w + i)) with (opens w + S i)%nat by lia.
      apply Hfail. lia.
    + simpl. replace (S (opens w + n)) with (opens w + S n)%nat by lia.
      exact Hok.
    + exists w'. simpl in Hw.
      replace (opens w + S n)%nat with (S (opens w + n)) by lia.
      eapply fails_once_more;
        [apply connect_attempt_port_closed, H0 | reflexivity | exact Hw].
Qed.

(** C9.  [establish_serial_connection] returns only through an attempt
    that succeeds, and it retries for as long as attempts fail: when [n]
    attempts in a row fail and the next one succeeds, it makes exactly
    [n + 1] attempts, pauses [RETRY_DELAY] seconds [n] times, once after
    each failure, and returns the handle of attempt [n + 1]; when every
    attempt fails it does not return, however many attempts it is given.
    In particular, a port that is absent for [n] calls of [serial.Serial]
    and present at the next is connected to at attempt [n + 1]. *)
Theorem establish_serial_connection_retries_until_connected (E : env) :
  (forall n w h w',
      fails_then_connects E n w h w' ->
      forall fuel, (n < fuel)%nat ->
        establish_serial_connection E fuel w = (Ok h, w')
        /\ h = (opens w + n)%nat
        /\ exists new,
            trace w' = (new ++ trace w)%list
            /\ attempts_in new = S n
            /\ retry_delays_in new = n)
  /\ (forall fuel w h w',
         establish_serial_connection E fuel w = (Ok h, w') ->
         exists n, (n < fuel)%nat /\ fails_then_connects E n w h w')
  /\ ((forall n, exists e, port_open E n = Some e
                           /\ is_SerialException_or_OSError e = true) ->
      forall fuel w, fst (establish_serial_connection E fuel w) = OutOfFuel)
  /\ (forall n w,
         (forall k, serial_fault E k = None) ->
         (forall i, (i < n)%nat ->
                    port_open E (opens w + i) = Some SerialException) ->
         port_open E (opens w + n) = None ->
         exists w',
           establish_serial_connection E (S n) w = (Ok (opens w + n)%nat, w')
           /\ exists new,
               trace w' = (new ++ trace w)%list
               /\ attempts_in new = S n
               /\ retry_delays_in new = n).
Proof.
  split; [| split; [| split]].
  - intros n w h w' H. apply establish_after_failures, H.
  - intros fuel. apply establish_returns_on_success.
  - apply establish_never_returns.
  - intros n w Hs Hfail Hok.
    destruct (port_absent_then_present E n Hs w Hfail Hok) as [w' Hw].
    destruct (establish_after_failures E n w _ w' Hw (S n) ltac:(lia))
      as (Hrun & _ & Hnew).
    exists w'. split; [exact Hrun | exact Hnew].
Qed.

Lemma establish_serial_connection_third_attempt :
  exists w',
    establish_serial_connection plugged_in_late 3 initial_world = (Ok 2%nat, w')
    /\ exists new,
        trace w' = (new ++ trace initial_world)%list
        /\ attempts_in new = 3%nat
        /\ retry_delays_in new = 2%nat.
Proof.
  eexists.
  destruct (proj1 (establish_serial_connection_retries_until_connected
                     plugged_in_late)
              2%nat initial_world 2%nat _
              ltac:(eapply fails_once_more;
                    [reflexivity | reflexivity |
                     eapply fails_once_more;
                     [reflexivity | reflexivity |
                      apply connects_at_once; reflexivity]])
              3%nat ltac:(lia))
    as [Hrun [_ Hnew]].
  split; [exact Hrun | exact Hnew].
Defined.











(** ** A pull tick on a sound link *)

Lemma process_line_link (line : string) (w : world) :
  exists w',
    process_line line w = (Ok tt, w')
    /\ link w' = link w
    /\ rx w' = rx w.
Proof.
  unfold process_line.
  destruct (PyStr.contains "INTERLOCK" line); [exists w; auto |].
  destruct (PyStr.truthy line && PyStr.contains "," line);
    [| exists w; auto].
  destruct (List.length (PyStr.split "," line) =? 3)%nat;
    [| exists w; auto].
  unfold try_except, bind, float_str, int_str, modify, ret, raise.
  destruct (PyStr.py_float (nth 0 (PyStr.split "," line) ""));
    [| exists w; auto].
  destruct (PyStr.py_float (nth 1 (PyStr.split "," line) ""));
    [| eexists; simpl; repeat split; reflexivity].
  destruct (PyStr.py_int (nth 2 (PyStr.split "," line) ""));
    eexists; simpl; repeat split; reflexivity.
Qed.

Lemma serial_op_cases (E : env) (w : world) :
  serial_op E w = (Ok tt, set_serial_ops (S (serial_ops w)) w)
  \/ exists e,
      serial_op E w = (Raise e, set_serial_ops (S (serial_ops w)) w).
Proof.
  unfold serial_op.
  destruct (serial_fault E (serial_ops w)) as [e |];
    [right; exists e | left]; reflexivity.
Qed.

(** The read loop always ends: it returns or raises within the tests it
    is given, one more than there are lines waiting. *)
Lemma drain_ends (E : env) (h : nat) (w : world) :
  fst (drain E h w) <> OutOfFuel.
Proof.
  unfold drain.
  assert (H : forall fuel w,
             (List.length (rx w) < fuel)%nat ->
             fst (while fuel
                    (n <- in_waiting E h ;; ret (negb (n =? 0)%nat))
                    (raw <- readline E h ;; process_line (PyStr.strip raw))
                    w) <> OutOfFuel).
  { clear w. induction fuel as [| fuel IH]; intros w Hlen; [lia |].
    simpl while. unfold bind at 1. unfold bind at 1.
    unfold in_waiting at 1. unfold bind at 1.
    destruct (serial_op_cases E w) as [Hop | [e Hop]]; rewrite Hop;
      [| simpl; intro Hx; discriminate Hx].
    unfold read at 1, ret at 1.
    change (rx (set_serial_ops (S (serial_ops w)) w)) with (rx w).
    destruct (rx w) as [| l rest] eqn:Hrx;
      [simpl; intro Hx; discriminate Hx |].
    cbn [List.length Nat.eqb negb]. unfold bind at 1. unfold bind at 1.
    unfold readline at 1. unfold bind at 1.
    match goal with |- context [serial_op E ?w0] =>
      destruct (serial_op_cases E w0) as [Hop' | [e Hop']]; rewrite Hop';
        [| simpl; intro Hx; discriminate Hx]
    end.
    match goal with |- context [match rx ?x with _ => _ end] =>
      change (rx x) with (rx w)
    end.
    rewrite Hrx.
    match goal with |- context [process_line ?s ?w0] =>
      destruct (process_line_link s w0) as (w1 & Hp & _ & Hq);
      rewrite Hp
    end.
    apply IH. rewrite Hq. simpl. simpl in Hlen. lia. }
  apply H. lia.
Qed.

(** Whatever [ser.in_waiting] raises on line 142 leaves the pass, the
    handle still held. *)
Lemma loop_body_in_waiting_raises (E : env) (fuel k : nat) (w : world)
  (h : nat) (e : exn) :
  ser w = Some h ->
  serial_fault E (serial_ops w) = Some e ->
  loop_body E fuel k w
  = (Raise e,
     set_serial_ops (S (serial_ops w)) (set_rx (rx w ++ arrivals E k) w)).
Proof.
  intros Hser Hfault.
  unfold loop_body.
  rewrite (bind_run _ _ w (set_rx (rx w ++ arrivals E k) w) tt eq_refl).
  unfold bind at 1. unfold serial_processing.
  unfold bind at 1, read at 1.
  change (ser (set_rx (rx w ++ arrivals E k) w)) with (ser w).
  rewrite Hser. unfold bind at 1. unfold in_waiting, bind at 1, serial_op.
  change (serial_ops (set_rx (rx w ++ arrivals E k) w)) with (serial_ops w).
  rewrite Hfault. reflexivity.
Qed.

Section SoundLink.

Variable E : env.
Hypothesis no_fault : forall n, serial_fault E n = None.

Lemma serial_op_sound (w : world) :
  serial_op E w = (Ok tt, set_serial_ops (S (serial_ops w)) w).
Proof. unfold serial_op. rewrite no_fault. reflexivity. Qed.

Lemma in_waiting_sound (h : nat) (w : world) :
  in_waiting E h w
  = (Ok (List.length (rx w)), set_serial_ops (S (serial_ops w)) w).
Proof. unfold in_waiting, bind. rewrite serial_op_sound. reflexivity. Qed.

Lemma readline_sound (h : nat) (w : world) :
  readline E h w
  = match rx w with
    | [] => (Ok EmptyString, set_serial_ops (S (serial_ops w)) w)
    | l :: rest => (Ok l, set_rx rest (set_serial_ops (S (serial_ops w)) w))
    end.
Proof.
  unfold readline, bind. rewrite serial_op_sound. simpl.
  destruct (rx w); reflexivity.
Qed.

Lemma drain_loop_sound (h : nat) (fuel : nat) :
  forall w,
    (List.length (rx w) < fuel)%nat ->
    exists w',
      while fuel
        (n <- in_waiting E h ;; ret (negb (n =? 0)%nat))
        (raw <- readline E h ;; process_line (PyStr.strip raw)) w
      = (Ok tt, w')
      /\ link w' = link w.
Proof.
  induction fuel as [| fuel IH]; intros w Hlen; [lia |].
  simpl while. unfold bind at 1. unfold bind at 1.
  rewrite in_waiting_sound. unfold ret at 1.
  destruct (rx w) as [| l rest] eqn:Hrx.
  - simpl. eexists. split; reflexivity.
  - cbn [List.length Nat.eqb negb]. unfold bind at 1. unfold bind at 1.
    rewrite readline_sound. simpl rx. rewrite Hrx.
    match goal with |- context [process_line ?s ?w0] =>
      destruct (process_line_link s w0) as (w1 & Hp & Hl & Hq);
      rewrite Hp
    end.
    destruct (IH w1) as (w' & Hw & Hl').
    + rewrite Hq. simpl. simpl in Hlen. lia.
    + exists w'. split; [exact Hw |].
      rewrite Hl', Hl. reflexivity.
Qed.

Lemma serial_processing_sound (current_time : Q) (w : world) :
  exists w',
    serial_processing E current_time w = (Ok tt, w')
    /\ link w' = link w.
Proof.
  unfold serial_processing. unfold bind at 1, read at 1.
  destruct (ser w) as [h |] eqn:Hser; [| exists w; auto].
  unfold bind at 1. rewrite in_waiting_sound.
  unfold bind at 1, read at 1.
  match goal with |- context [if ?b then _ else _] => destruct b end;
    [| eexists; split; reflexivity].
  unfold bind at 1, modify at 1. unfold try_except, drain.
  match goal with |- context [while (S (List.length (rx ?w0))) ?c ?b ?w0] =>
    destruct (drain_loop_sound h (S (List.length (rx w0))) w0)
      as (w' & Hw & Hl); [lia | rewrite Hw]
  end.
  exists w'. split; [reflexivity |]. rewrite Hl. reflexivity.
Qed.
Lemma api_posting_link (k : nat) (current_time : Q) (w : world) :
  exists w',
    api_posting E k current_time w = (Ok tt, w')
    /\ link w' = link w.
Proof.
  destruct (Qle_bool POST_INTERVAL (current_time - last_post_time w))
    eqn:Hdue.
  - rewrite (api_posting_due E k current_time w Hdue).
    unfold bind. rewrite post_cases. unfold modify.
    eexists. split; [reflexivity |].
    destruct (file_open_ok E k);
      [rewrite log_pid_data_to_csv_ok | rewrite log_pid_data_to_csv_open_fails];
      reflexivity.
  - unfold api_posting, bind, read. rewrite Hdue.
    exists w. auto.
Qed.

Lemma send_setpoint_sound (h : nat) (sp : Q) (w : world) :
  exists w',
    send_setpoint_to_arduino E h sp w = (Ok tt, w')
    /\ link w'
       = (ser w, closed w, current_setpoint w, last_get_time w,
          (h, setpoint_frame sp) :: writes_of (trace w)).
Proof.
  unfold send_setpoint_to_arduino, flushInput, flushOutput, write,
    try_except, bind.
  rewrite !serial_op_sound. unfold modify.
  rewrite !serial_op_sound.
  eexists. split; reflexivity.
Qed.

(** The setpoint check when the pull is due and the server answers 200
    with the body [{"setpoint": v}]. *)
Lemma setpoint_check_sound (k : nat) (current_time : Q) (w : world)
  (h : nat) (v : Q) :
  ser w = Some h ->
  Qle_bool GET_INTERVAL (current_time - last_get_time w) = true ->
  http_get E k = Response 200 (Some (JObj [("setpoint", JNum v)])) ->
  exists w',
    setpoint_check E k current_time w = (Ok tt, w')
    /\ ser w' = Some h
    /\ closed w' = closed w
    /\ writes_of (trace w')
       = ((if Qeq_bool v (current_setpoint w)
           then []
           else [(h, setpoint_frame v)])
          ++ writes_of (trace w))%list.
Proof.
  intros Hser Hdue Hget.
  unfold setpoint_check. unfold bind at 1, read at 1. rewrite Hdue.
  unfold bind at 1. rewrite get_cases, Hget.
  change (reported_setpoint
            (Response 200 (Some (JObj [("setpoint", JNum v)]))))
    with (Some v).
  cbv iota beta.
  destruct (Qeq_bool v (current_setpoint w)).
  - unfold bind, read, ret, modify. simpl.
    eexists. repeat split; try reflexivity. simpl. exact Hser.
  - unfold bind at 1, read at 1. simpl ser. rewrite Hser.
    unfold bind at 1. unfold bind at 1, read at 1.
    unfold try_except.
    match goal with |- context [send_setpoint_to_arduino E h ?sp ?w0] =>
      destruct (send_setpoint_sound h sp w0) as (w1 & Hs & Hl);
      rewrite Hs
    end.
    unfold modify. eexists. split; [reflexivity |].
    unfold link in Hl. simpl in Hl. injection Hl as H1 H2 H3 H4 H5.
    simpl. repeat split; congruence.
Qed.

Lemma reconnect_not_needed (fuel : nat) (w : world) (h : nat) :
  ser w = Some h ->
  existsb (Nat.eqb h) (closed w) = false ->
  reconnect_if_needed E fuel w = (Ok tt, w).
Proof.
  intros Hser Hopen.
  unfold reconnect_if_needed, is_open, bind, read, ret.
  rewrite Hser. cbv beta iota. rewrite Hopen. reflexivity.
Qed.

(** One pass of the loop on a sound link, the pull being due, the server
    answering with setpoint [v]: the pass ends normally and writes the
    frame for [v] once when [v] differs from the setpoint held, and
    nothing when it does not. *)
Lemma loop_body_pull_writes (fuel k : nat) (w : world) (h : nat) (v : Q) :
  ser w = Some h ->
  existsb (Nat.eqb h) (closed w) = false ->
  Qle_bool GET_INTERVAL (clock E (3 + k) - last_get_time w) = true ->
  http_get E k = Response 200 (Some (JObj [("setpoint", JNum v)])) ->
  exists w',
    loop_body E fuel k w = (Ok tt, w')
    /\ writes_of (trace w')
       = ((if Qeq_bool v (current_setpoint w)
           then []
           else [(h, setpoint_frame v)])
          ++ writes_of (trace w))%list.
Proof.
  intros Hser Hopen Hdue Hget.
  unfold loop_body.
  rewrite (bind_run _ _ w (set_rx (rx w ++ arrivals E k) w) tt eq_refl).
  destruct (serial_processing_sound (clock E (3 + k))
              (set_rx (rx w ++ arrivals E k) w)) as (w1 & H1 & L1).
  rewrite (bind_run _ _ _ _ _ H1).
  destruct (api_posting_link k (clock E (3 + k)) w1) as (w2 & H2 & L2).
  rewrite (bind_run _ _ _ _ _ H2).
  assert (L : link w2 = link w) by (rewrite L2, L1; reflexivity).
  unfold link in L. injection L as La Lb Lc Ld Le.
  destruct (setpoint_check_sound k (clock E (3 + k)) w2 h v)
    as (w3 & H3 & Hs3 & Hc3 & Hw3).
  { congruence. }
  { rewrite Ld. exact Hdue. }
  { exact Hget. }
  rewrite (bind_run _ _ _ _ _ H3).
  rewrite (bind_run _ _ _ _ _
             (reconnect_not_needed fuel w3 h Hs3 ltac:(congruence))).
  unfold sleep, modify. eexists. split; [reflexivity |].
  simpl. rewrite Hw3, Lc, Le. reflexivity.
Qed.

End SoundLink.

Lemma setpoint_frame_90 : setpoint_frame 90.0 = "SP:90.0" ++ LF.
Proof. reflexivity. Qed.

(** C6.  On a pass of the loop with a connection open, no serial
    operation failing and the pull due: a response reporting setpoint [v]
    makes the pass write exactly one frame, the one for [v], when [v]
    differs from the setpoint held, and no frame when it is the same.  With
    85.0 held and 90.0 reported the one frame is "SP:90.0\n". *)
Theorem pull_tick_writes_new_setpoint_once (E : env) (fuel k : nat)
  (w : world) (h : nat) :
  (forall n, serial_fault E n = None) ->
  ser w = Some h ->
  existsb (Nat.eqb h) (closed w) = false ->
  Qle_bool GET_INTERVAL (clock E (3 + k) - last_get_time w) = true ->
  (forall v,
      http_get E k = Response 200 (Some (JObj [("setpoint", JNum v)])) ->
      exists w',
        loop_body E fuel k w = (Ok tt, w')
        /\ writes_of (trace w')
           = ((if Qeq_bool v (current_setpoint w)
               then []
               else [(h, setpoint_frame v)])
              ++ writes_of (trace w))%list)
  /\ (current_setpoint w = 85.0 ->
      http_get E k = Response 200 (Some (JObj [("setpoint", JNum 90.0)])) ->
      exists w',
        loop_body E fuel k w = (Ok tt, w')
        /\ writes_of (trace w') = (h, "SP:90.0" ++ LF) :: writes_of (trace w))
  /\ (current_setpoint w = 85.0 ->
      http_get E k = Response 200 (Some (JObj [("setpoint", JNum 85.0)])) ->
      exists w',
        loop_body E fuel k w = (Ok tt, w')
        /\ writes_of (trace w') = writes_of (trace w)).
Proof.
  intros Hsound Hser Hopen Hdue.
  split; [| split].
  - intros v Hget.
    exact (loop_body_pull_writes E Hsound fuel k w h v Hser Hopen Hdue Hget).
  - intros Hsp Hget.
    destruct (loop_body_pull_writes E Hsound fuel k w h 90.0
                Hser Hopen Hdue Hget) as (w' & Hrun & Hw).
    exists w'. split; [exact Hrun |].
    rewrite Hw, Hsp. reflexivity.
  - intros Hsp Hget.
    destruct (loop_body_pull_writes E Hsound fuel k w h 85.0
                Hser Hopen Hdue Hget) as (w' & Hrun & Hw).
    exists w'. split; [exact Hrun |].
    rewrite Hw, Hsp. reflexivity.
Qed.

Lemma pull_tick_writes_new_setpoint_once_example :
  exists w',
    loop_body setpoint_raised 1 0 connected_world = (Ok tt, w')
    /\ writes_of (trace w')
       = (0%nat, "SP:90.0" ++ LF) :: writes_of (trace connected_world).
Proof.
  apply (proj1 (proj2 (pull_tick_writes_new_setpoint_once
                         setpoint_raised 1 0 connected_world 0%nat
                         (fun _ => eq_refl) eq_refl eq_refl eq_refl)));
    reflexivity.
Defined.

(** ** A failure of the serial handle outside the [try] *)

(** A failure inside the [try] of lines 144-163 is handled: the handle is
    closed, the same pass reconnects, and the loop goes on. *)
Example read_failure_is_handled :
  fst (main read_fails 1 1 initial_world) = OutOfFuel
  /\ ser (snd (main read_fails 1 1 initial_world)) = Some 1%nat
  /\ closed (snd (main read_fails 1 1 initial_world)) = [0%nat].
Proof. vm_compute. repeat split. Qed.

(** C2.  A SerialException raised by the test of [ser.in_waiting] on line
    142 is not caught: it leaves the first pass of the loop with the
    connection still held as open, and after the [finally] clause the
    script ends with it, however many passes it was meant to make. *)
Theorem in_waiting_failure_ends_the_process :
  (forall n, fst (main cable_pulled 1 (S n) initial_world)
             = Raise SerialException)
  /\ fst (loop_body cable_pulled 1 0 connected_world) = Raise SerialException
  /\ ser (snd (loop_body cable_pulled 1 0 connected_world)) = Some 0%nat.
Proof.
  split; [| split]; [intro n | |]; vm_compute; reflexivity.
Qed.

(** * Further properties *)

(** ** Unit conversion: range and order *)

Lemma py_clamp_in_range (x : Q) :
  SENSOR_TO_FULL <= py_max (py_min x SENSOR_TO_EMPTY) SENSOR_TO_FULL
  /\ py_max (py_min x SENSOR_TO_EMPTY) SENSOR_TO_FULL <= SENSOR_TO_EMPTY.
Proof.
  assert (SENSOR_TO_FULL < SENSOR_TO_EMPTY) by reflexivity.
  destruct (py_clamp_cases x) as [[H1 H2] | [[H1 [H3 H2]] | [H1 H2]]];
    cbv zeta in H2; rewrite H2; split; lra.
Qed.

Lemma py_clamp_monotone (a b : Q) :
  a <= b ->
  py_max (py_min a SENSOR_TO_EMPTY) SENSOR_TO_FULL
  <= py_max (py_min b SENSOR_TO_EMPTY) SENSOR_TO_FULL.
Proof.
  intro Hab.
  assert (SENSOR_TO_FULL < SENSOR_TO_EMPTY) by reflexivity.
  destruct (py_clamp_cases a) as [[A1 A2] | [[A1 [A3 A2]] | [A1 A2]]];
    destruct (py_clamp_cases b) as [[B1 B2] | [[B1 [B3 B2]] | [B1 B2]]];
    cbv zeta in A2, B2; rewrite A2, B2; lra.
Qed.

Lemma percent_of_clamped_strict (a b : Q) :
  a < b -> percent_of_clamped b < percent_of_clamped a.
Proof.
  intro H. unfold percent_of_clamped.
  apply Qmult_lt_compat_r; [reflexivity |].
  unfold Qdiv. apply Qmult_lt_compat_r.
  - apply Qinv_lt_0_compat, sensor_range_positive.
  - lra.
Qed.

(** Whatever the reading, the percentage lies between 0 and 100; a larger
    distance never gives a larger percentage, inside the calibrated
    interval or outside it; and inside the interval a strictly larger
    distance gives a strictly smaller percentage. *)
Theorem sensor_to_percent_bounded_and_antitone :
  (forall d, 0 <= sensor_to_percent d /\ sensor_to_percent d <= 100)
  /\ (forall d1 d2, d1 <= d2 -> sensor_to_percent d2 <= sensor_to_percent d1)
  /\ (forall d1 d2,
         SENSOR_TO_FULL <= d1 -> d1 < d2 -> d2 <= SENSOR_TO_EMPTY ->
         sensor_to_percent d2 < sensor_to_percent d1).
Proof.
  split; [| split].
  - intro d. rewrite sensor_to_percent_clamped.
    destruct (py_clamp_in_range d) as [Hlo Hhi].
    split.
    + assert (H0 : percent_of_clamped SENSOR_TO_EMPTY == 0) by reflexivity.
      rewrite <- H0. apply percent_of_clamped_antitone, Hhi.
    + assert (H1 : percent_of_clamped SENSOR_TO_FULL == 100) by reflexivity.
      rewrite <- H1. apply percent_of_clamped_antitone, Hlo.
  - intros d1 d2 H. rewrite !sensor_to_percent_clamped.
    apply percent_of_clamped_antitone, py_clamp_monotone, H.
  - intros d1 d2 H1 H12 H2. rewrite !sensor_to_percent_clamped.
    assert (SENSOR_TO_FULL < SENSOR_TO_EMPTY) by reflexivity.
    destruct (py_clamp_cases d1) as [[A1 A2] | [[A1 [A3 A2]] | [A1 A2]]];
      destruct (py_clamp_cases d2) as [[B1 B2] | [[B1 [B3 B2]] | [B1 B2]]];
      cbv zeta in A2, B2; rewrite A2, B2;
      apply percent_of_clamped_strict; lra.
Qed.

Lemma sensor_to_percent_bounded_and_antitone_example :
  sensor_to_percent 40 <= sensor_to_percent (-3)
  /\ sensor_to_percent 6.0 < sensor_to_percent 5.0.
Proof.
  split.
  - apply (proj1 (proj2 sensor_to_percent_bounded_and_antitone)).
    unfold Qle; simpl; lia.
  - apply (proj2 (proj2 sensor_to_percent_bounded_and_antitone));
      unfold Qle, Qlt; simpl; lia.
Defined.

(** ** The pump conversion on positive raw values *)




(** ** The decoder and the read loop *)

Lemma process_line_frame (line : string) (w : world) :
  exists w',
    process_line line w = (Ok tt, w')
    /\ beside_readings w' = beside_readings w.
Proof.
  unfold process_line.
  destruct (PyStr.contains "INTERLOCK" line); [exists w; auto |].
  destruct (PyStr.truthy line && PyStr.contains "," line);
    [| exists w; auto].
  destruct (List.length (PyStr.split "," line) =? 3)%nat;
    [| exists w; auto].
  unfold try_except, bind, float_str, int_str, modify, ret, raise.
  destruct (PyStr.py_float (nth 0 (PyStr.split "," line) ""));
    [| exists w; auto].
  destruct (PyStr.py_float (nth 1 (PyStr.split "," line) ""));
    [| eexists; simpl; split; reflexivity].
  destruct (PyStr.py_int (nth 2 (PyStr.split "," line) ""));
    eexists; simpl; split; reflexivity.
Qed.

(** Decoding a line always ends normally and touches nothing but the
    three readings: not the setpoint, the connection, the timers, the lines
    still waiting, the log file or the history. *)
Theorem process_line_only_touches_readings (line : string) (w : world) :
  exists w',
    process_line line w = (Ok tt, w')
    /\ beside_readings w' = beside_readings w.
Proof. exact (process_line_frame line w). Qed.

(** What a line makes of the readings depends on the readings alone. *)
Lemma process_line_readings (line : string) (w1 w2 : world) :
  readings w1 = readings w2 ->
  readings (snd (process_line line w1)) = readings (snd (process_line line w2)).
Proof.
  intro H. unfold process_line.
  destruct (PyStr.contains "INTERLOCK" line); [exact H |].
  destruct (PyStr.truthy line && PyStr.contains "," line); [| exact H].
  destruct (List.length (PyStr.split "," line) =? 3)%nat; [| exact H].
  unfold try_except, bind, float_str, int_str, modify, ret, raise.
  unfold readings in *. injection H as Hu Hl Hp.
  destruct (PyStr.py_float (nth 0 (PyStr.split "," line) ""));
    [| simpl; congruence].
  destruct (PyStr.py_float (nth 1 (PyStr.split "," line) ""));
    [| simpl; congruence].
  destruct (PyStr.py_int (nth 2 (PyStr.split "," line) ""));
    simpl; congruence.
Qed.

Lemma decode_all_readings (lines : list string) :
  forall w1 w2,
    readings w1 = readings w2 ->
    readings (decode_all lines w1) = readings (decode_all lines w2).
Proof.
  induction lines as [| raw rest IH]; intros w1 w2 H; [exact H |].
  simpl. apply IH, process_line_readings, H.
Qed.

Section ReadLoop.

Variable E : env.
Hypothesis no_fault : forall n, serial_fault E n = None.

Lemma drain_loop_decodes (h : nat) (fuel : nat) :
  forall w,
    (List.length (rx w) < fuel)%nat ->
    exists w',
      while fuel
        (n <- in_waiting E h ;; ret (negb (n =? 0)%nat))
        (raw <- readline E h ;; process_line (PyStr.strip raw)) w
      = (Ok tt, w')
      /\ rx w' = []
      /\ readings w' = readings (decode_all (rx w) w).
Proof.
  induction fuel as [| fuel IH]; intros w Hlen; [lia |].
  simpl while. unfold bind at 1. unfold bind at 1.
  rewrite (in_waiting_sound E no_fault). unfold ret at 1.
  destruct (rx w) as [| l rest] eqn:Hrx.
  - simpl. eexists. split; [reflexivity |]. split; [exact Hrx | reflexivity].
  - cbn [List.length Nat.eqb negb]. unfold bind at 1. unfold bind at 1.
    rewrite (readline_sound E no_fault).
    match goal with |- context [match rx ?x with _ => _ end] =>
      change (rx x) with (rx w)
    end.
    rewrite Hrx.
    match goal with |- context [process_line ?s ?w0] =>
      destruct (process_line_frame s w0) as (w1 & Hp & Hb);
      rewrite Hp;
      pose proof (process_line_readings s w0 w eq_refl) as Hr;
      rewrite Hp in Hr; simpl snd in Hr
    end.
    assert (Hq : rx w1 = rest).
    { unfold beside_readings in Hb. injection Hb as _ _ _ _ _ _ _ _ Hq _ _.
      exact Hq. }
    destruct (IH w1) as (w' & Hw & Hempty & Hread).
    + rewrite Hq. simpl in Hlen. lia.
    + exists w'. split; [exact Hw |]. split; [exact Hempty |].
      rewrite Hread, Hq. simpl decode_all.
      apply decode_all_readings. exact Hr.
Qed.


End ReadLoop.


(** *** A failure while reading *)

Section ReadFailure.

Variable E : env.

Lemma keeps_beside_reading_serial_op {X} (x : X)
  (f : world -> X) :
  (forall v w, f (set_serial_ops v w) = f w) ->
  keeps (fun w => f w = x) (serial_op E).
Proof.
  intros Hf w H. unfold serial_op.
  destruct (serial_fault E (serial_ops w)); simpl; rewrite Hf; exact H.
Qed.

Lemma keeps_beside_reading_drain (h : nat) x :
  keeps (fun w => beside_reading w = x) (drain E h).
Proof.
  assert (Hop : keeps (fun w => beside_reading w = x) (serial_op E))
    by (apply keeps_beside_reading_serial_op; reflexivity).
  assert (Hw : forall fuel,
             keeps (fun w => beside_reading w = x)
               (while fuel
                  (n <- in_waiting E h ;; ret (negb (n =? 0)%nat))
                  (raw <- readline E h ;; process_line (PyStr.strip raw)))).
  { apply keeps_while.
    - apply keeps_bind; [| intros n; apply keeps_ret].
      unfold in_waiting. apply keeps_bind; [exact Hop |].
      intros _. apply keeps_read.
    - apply keeps_bind.
      + unfold readline. apply keeps_bind; [exact Hop |].
        intros _ w H. destruct (rx w); simpl; exact H.
      + intros raw w H.
        destruct (process_line_frame (PyStr.strip raw) w) as (w1 & Hp & Hb).
        rewrite Hp. simpl. rewrite <- H.
        unfold beside_readings in Hb. unfold beside_reading.
        injection Hb as H1 H2 H3 H4 H5 H6 H7 H8 H9 H10 H11. congruence. }
  intros w H. unfold drain. apply Hw, H.
Qed.

(** The read step with a handle whose test on line 142 works.  It never
    lets a SerialException out and it always ends.  When it returns, either
    the connection is as it was, or a SerialException was caught: then the
    handle has been closed and [ser] is None, for the pass to reconnect.
    Either way the setpoint, the log file and the frames sent are as they
    were. *)
Theorem serial_processing_catches_read_failure (current_time : Q)
  (w : world) (h : nat) (r : outcome unit) (w' : world) :
  ser w = Some h ->
  serial_fault E (serial_ops w) = None ->
  serial_processing E current_time w = (r, w') ->
  r <> Raise SerialException
  /\ r <> OutOfFuel
  /\ current_setpoint w' = current_setpoint w
  /\ csv_file w' = csv_file w
  /\ writes_of (trace w') = writes_of (trace w)
  /\ (r = Ok tt ->
      (ser w' = Some h /\ closed w' = closed w)
      \/ (ser w' = None /\ closed w' = h :: closed w)).
Proof.
  intros Hser Hop.
  unfold serial_processing. unfold bind at 1, read at 1. rewrite Hser.
  unfold bind at 1. unfold in_waiting at 1, bind at 1, serial_op at 1.
  rewrite Hop. unfold read at 1. unfold bind at 1, read at 1.
  match goal with |- context [if ?b then _ else _] => destruct b end;
    cycle 1.
  { intro H. injection H as <- <-. simpl.
    repeat split; try discriminate. intros _. left. auto. }
  unfold bind at 1, modify at 1. unfold try_except.
  match goal with |- context [drain E h ?w0] =>
    pose proof (drain_ends E h w0) as Hend;
    pose proof (keeps_beside_reading_drain h _ w0 eq_refl) as Hk;
    destruct (drain E h w0) as [[[] | e |] wd]
  end; simpl in Hend, Hk; unfold beside_reading in Hk;
    injection Hk as K1 K2 K3 K4 K5 K6 K7 K8 K9.
  - intro H. injection H as <- <-. rewrite K1, K2, K7, K8, K9.
    repeat split; try discriminate. intros _. left. auto.
  - destruct e; intro H; injection H as <- <-; simpl;
      rewrite ?K1, ?K2, ?K7, ?K8, ?K9;
      repeat split; try discriminate;
      try (intros _; right; auto).
  - contradiction.
Qed.

End ReadFailure.

Lemma serial_processing_catches_read_failure_example :
  exists w',
    serial_processing read_fails 3
      (set_rx ["5.2,3.1,20" ++ LF] connected_world) = (Ok tt, w')
    /\ ser w' = None
    /\ closed w' = [0%nat].
Proof.
  pose (W := set_rx ["5.2,3.1,20" ++ LF] connected_world).
  exists (snd (serial_processing read_fails 3 W)).
  destruct (serial_processing_catches_read_failure read_fails 3 W 0%nat
              (Ok tt) (snd (serial_processing read_fails 3 W))
              eq_refl eq_refl ltac:(vm_compute; reflexivity))
    as (_ & _ & _ & _ & _ & H).
  split; [vm_compute; reflexivity |].
  destruct (H eq_refl) as [[Hs _] | [Hs Hc]].
  - vm_compute in Hs. discriminate Hs.
  - split; [exact Hs | exact Hc].
Defined.

(** ** The audit log when the file does not always open *)

Lemma log_all_cons (c : log_call) (rest : list log_call) (w : world) :
  log_all (c :: rest) w
  = log_all rest
      (snd (log_pid_data_to_csv (call_open_ok c) (call_now c)
              (call_upper_percent c) (call_pump_percent c)
              (call_setpoint c) w)).
Proof.
  destruct c as [ok now u p sp].
  cbn [log_all call_open_ok call_now call_upper_percent call_pump_percent
       call_setpoint].
  unfold bind at 1.
  destruct ok;
    [rewrite log_pid_data_to_csv_ok | rewrite log_pid_data_to_csv_open_fails];
    reflexivity.
Qed.

Lemma open_close_snoc (n : nat) (l : list event) :
  (open_close n ++ FileClosed :: FileOpened :: l
   = FileClosed :: FileOpened :: open_close n ++ l)%list.
Proof.
  induction n as [| n IH]; [reflexivity |].
  simpl. rewrite IH. reflexivity.
Qed.

(** Calls of [log_pid_data_to_csv] never raise, whether the file opens or
    not.  A call on which the file does not open writes nothing; the
    others add their data rows in order, after the header when the first
    of them creates the file.  Rows already in the file stay as they are,
    and the file is closed again after every opening. *)
Theorem log_all_skips_failed_opens (calls : list log_call) :
  forall w, exists w',
    log_all calls w = (Ok tt, w')
    /\ csv_file w'
       = match opened_calls calls, csv_file w with
         | [], file => file
         | _ :: _, Some rows =>
             Some (rows ++ map row_of (opened_calls calls))%list
         | _ :: _, None => Some (fieldnames :: map row_of (opened_calls calls))
         end
    /\ (forall rows, csv_file w = Some rows ->
          exists more, csv_file w' = Some (rows ++ more)%list)
    /\ trace w'
       = (open_close (List.length (opened_calls calls)) ++ trace w)%list.
Proof.
  induction calls as [| c rest IH]; intro w.
  - exists w. repeat split; try reflexivity.
    intros rows H. exists []. rewrite app_nil_r. exact H.
  - rewrite log_all_cons.
    destruct c as [ok now u p sp].
    cbn [call_open_ok call_now call_upper_percent call_pump_percent
         call_setpoint].
    destruct ok.
    + rewrite log_pid_data_to_csv_ok. cbn [snd].
      match goal with |- context [log_all rest ?w1] =>
        destruct (IH w1) as (w' & Hrun & Hfile & Hkeep & Htrace)
      end.
      exists w'. split; [exact Hrun |]. cbn [csv_file set_csv_file
        log_event trace] in *.
      split; [| split].
      * rewrite Hfile. unfold opened_calls. cbn [filter call_open_ok].
        fold (opened_calls rest).
        destruct (opened_calls rest) as [| c2 cs];
          destruct (csv_file w) as [rows |]; simpl; try reflexivity.
        rewrite <- app_assoc. reflexivity.
      * intros rows Hrows.
        destruct (Hkeep _ eq_refl) as [more Hmore].
        exists (data_row now u p sp :: more).
        rewrite Hmore, Hrows. cbn [appended]. rewrite <- app_assoc.
        reflexivity.
      * rewrite Htrace. unfold opened_calls. cbn [filter call_open_ok].
        fold (opened_calls rest). cbn [List.length open_close].
        apply open_close_snoc.
    + rewrite log_pid_data_to_csv_open_fails. cbn [snd].
      destruct (IH w) as (w' & Hrun & Hfile & Hkeep & Htrace).
      exists w'. split; [exact Hrun |].
      split; [| split]; assumption.
Qed.

(** ** Pulling twice, and what a pull leaves alone *)


(** ** Sending a setpoint *)



(** ** What [establish_serial_connection] raises and what it leaves alone *)

(** What connecting has no business with. *)
Lemma connect_attempt_frame (E : env) (w : world) :
  let w' := snd (connect_attempt E w) in
  (current_setpoint w', readings w', ser w', closed w', csv_file w',
   last_post_time w', last_get_time w', last_serial_time w')
  = (current_setpoint w, readings w, ser w, closed w, csv_file w,
     last_post_time w, last_get_time w, last_serial_time w)
  /\ (forall h, fst (connect_attempt E w) = Ok h -> rx w' = []).
Proof.
  cbv zeta.
  unfold connect_attempt, send_setpoint_to_arduino, flushInput, flushOutput,
    write, Serial, serial_op, sleep, try_except, bind, read, modify, ret,
    raise, readings.
  destruct w as [c lu ll lp s tp tg ts no ns cl q f t]. simpl.
  destruct (port_open E no) as [e |]; simpl.
  { split; [reflexivity | intros h Hh; discriminate Hh]. }
  repeat
    match goal with
    | |- context [serial_fault E ?n] =>
        destruct (serial_fault E n) as [[] |]; simpl
    end;
    (split; [reflexivity | intros h Hh; try discriminate Hh; reflexivity]).
Qed.

(** [establish_serial_connection] never lets a SerialException or an
    OSError out: it retries on them.  However it ends, it leaves the
    setpoint, the readings, the loop's handle, the timers and the log file
    as they are, and it closes no handle, not even one that a failed
    attempt had opened.  When it returns, the lines that were waiting have
    been discarded. *)
Theorem establish_serial_connection_retries_serial_errors (E : env)
  (fuel : nat) :
  forall w,
    (forall e, fst (establish_serial_connection E fuel w) = Raise e ->
               is_SerialException_or_OSError e = false)
    /\ (let w' := snd (establish_serial_connection E fuel w) in
        (current_setpoint w', readings w', ser w', closed w', csv_file w',
         last_post_time w', last_get_time w', last_serial_time w')
        = (current_setpoint w, readings w, ser w, closed w, csv_file w,
           last_post_time w, last_get_time w, last_serial_time w))
    /\ (forall h, fst (establish_serial_connection E fuel w) = Ok h ->
                  rx (snd (establish_serial_connection E fuel w)) = []).
Proof.
  induction fuel as [| fuel IH]; intro w.
  - simpl. repeat split; intros ? H; discriminate H.
  - rewrite establish_step.
    pose proof (connect_attempt_frame E w) as [Hf Hrx]. cbv zeta in Hf.
    destruct (connect_attempt E w) as [[h | e |] w1]; simpl in Hf, Hrx.
    + simpl. split; [intros e H; discriminate H |].
      split; [exact Hf |]. intros h' _. exact (Hrx h eq_refl).
    + destruct (is_SerialException_or_OSError e) eqn:He.
      * destruct (IH (log_event (Slept RETRY_DELAY) w1))
          as (Hraise & Hkeep & Hflush).
        split; [exact Hraise |]. split; [| exact Hflush].
        cbv zeta in Hkeep. cbv zeta. rewrite Hkeep. simpl. exact Hf.
      * simpl. split; [intros e' H; injection H as <-; exact He |].
        split; [exact Hf |]. intros h H; discriminate H.
    + simpl. split; [intros e H; discriminate H |].
      split; [exact Hf |]. intros h H; discriminate H.
Qed.

(** ** The push step *)




(** ** The setpoint check *)




(** ** The loop on a sound link *)

Section SafeLoop.

Variable E : env.
Hypothesis no_fault : forall n, serial_fault E n = None.





End SafeLoop.


(** ** How often the device is read *)

Section ReadPacing.

Variable E : env.
Hypothesis no_fault : forall n, serial_fault E n = None.

Lemma serial_processing_idle (current_time : Q) (w : world) (h : nat) :
  ser w = Some h ->
  rx w = [] \/ Qle_bool SERIAL_READ_INTERVAL
                 (current_time - last_serial_time w) = false ->
  serial_processing E current_time w
  = (Ok tt, set_serial_ops (S (serial_ops w)) w).
Proof.
  intros Hser Hidle.
  unfold serial_processing. unfold bind at 1, read at 1. rewrite Hser.
  unfold bind at 1. rewrite (in_waiting_sound E no_fault).
  unfold bind at 1, read at 1.
  change (last_serial_time (set_serial_ops (S (serial_ops w)) w))
    with (last_serial_time w).
  destruct Hidle as [Hrx | Hnot].
  - rewrite Hrx. reflexivity.
  - rewrite Hnot, andb_false_r. reflexivity.
Qed.

(** On a sound link, a read step that is due and finds lines waiting
    takes them all and sets the read timer; a read step made less than
    [SERIAL_READ_INTERVAL] later takes none of the lines that have come in
    since, and leaves the readings as they are.  A read step that finds
    nothing waiting does not set the timer. *)
Theorem reads_are_paced (current_time : Q) (w : world) (h : nat) :
  ser w = Some h ->
  (rx w <> [] ->
   Qle_bool SERIAL_READ_INTERVAL (current_time - last_serial_time w) = true ->
   exists w1,
     serial_processing E current_time w = (Ok tt, w1)
     /\ rx w1 = []
     /\ readings w1 = readings (decode_all (rx w) w)
     /\ last_serial_time w1 = current_time
     /\ forall lines t',
         Qle_bool SERIAL_READ_INTERVAL (t' - current_time) = false ->
         exists w2,
           serial_processing E t' (set_rx lines w1) = (Ok tt, w2)
           /\ rx w2 = lines
           /\ readings w2 = readings w1)
  /\ (rx w = [] ->
      exists w1,
        serial_processing E current_time w = (Ok tt, w1)
        /\ last_serial_time w1 = last_serial_time w
        /\ readings w1 = readings w).
Proof.
  intro Hser. split.
  - intros Hrx Hdue.
    unfold serial_processing. unfold bind at 1, read at 1. rewrite Hser.
    unfold bind at 1. rewrite (in_waiting_sound E no_fault).
    unfold bind at 1, read at 1.
    change (last_serial_time (set_serial_ops (S (serial_ops w)) w))
      with (last_serial_time w).
    rewrite Hdue.
    destruct (rx w) as [| l rest] eqn:Hq; [contradiction |].
    cbn [List.length Nat.eqb negb andb].
    unfold bind at 1, modify at 1. unfold try_except, drain.
    match goal with
    | |- context [while (S (List.length (rx ?w0))) ?c ?b ?w0] =>
        destruct (drain_loop_decodes E no_fault h
                    (S (List.length (rx w0))) w0)
          as (w1 & Hw & Hempty & Hread); [lia | rewrite Hw];
        pose proof (keeps_beside_reading_drain E h _ w0 eq_refl) as Hk;
        unfold drain in Hk; rewrite Hw in Hk
    end.
    simpl in Hk, Hread.
    pose proof (f_equal (fun t => snd (fst (fst (fst (fst t))))) Hk) as Ht.
    pose proof (f_equal (fun t => snd (fst (fst (fst (fst
                  (fst (fst (fst t)))))))) Hk) as Hs.
    simpl in Ht, Hs.
    exists w1. split; [reflexivity |]. split; [exact Hempty |].
    split.
    { rewrite Hread. rewrite Hq.
      apply decode_all_readings. reflexivity. }
    split; [exact Ht |].
    intros lines t' Hnot.
    assert (Hser1 : ser (set_rx lines w1) = Some h)
      by (simpl; rewrite Hs; exact Hser).
    assert (Hnot1 : Qle_bool SERIAL_READ_INTERVAL
                      (t' - last_serial_time (set_rx lines w1)) = false)
      by (simpl; rewrite Ht; exact Hnot).
    pose proof (serial_processing_idle t' (set_rx lines w1) h Hser1
                  (or_intror Hnot1)) as Hidle.
    exists (set_serial_ops (S (serial_ops (set_rx lines w1)))
              (set_rx lines w1)).
    split; [exact Hidle |]. split; reflexivity.
  - intro Hrx.
    rewrite (serial_processing_idle current_time w h Hser (or_introl Hrx)).
    eexists. split; [reflexivity |]. split; reflexivity.
Qed.

End ReadPacing.

Lemma reads_are_paced_example :
  exists w1,
    serial_processing calm 3
      (set_rx ["5.2,3.1,20" ++ LF] connected_world) = (Ok tt, w1)
    /\ readings w1 = (5.2, 3.1, 20%Z)
    /\ last_serial_time w1 = 3.
Proof.
  destruct (proj1 (reads_are_paced calm (fun _ => eq_refl) 3
                     (set_rx ["5.2,3.1,20" ++ LF] connected_world) 0%nat
                     eq_refl)
              ltac:(discriminate) eq_refl)
    as (w1 & Hrun & _ & Hread & Ht & _).
  exists w1. split; [exact Hrun |]. split; [| exact Ht].
  rewrite Hread. reflexivity.
Defined.
